(** * Whispering extension: cross-context command table and recorder state machine

    Shallow embedding of [apps/extension/lib/utils/commands.ts].

    The [Effect] values of the source are modelled as state-passing
    computations over a [World] that ends in one of the three exits of the
    effect library: a success value, a typed failure (the [E] channel) or a
    defect (a thrown exception or a rejected promise under [Effect.promise]).
    [Effect.catchAll] and [Effect.mapError] only see typed failures. *)

From Stdlib Require Import Ascii String List NArith ZArith Lia Bool.
From stdpp Require Import base option gmap strings list.

Import ListNotations.
Local Set Warnings "-register-all".
Local Open Scope string_scope.
Local Open Scope list_scope.

(** ** Characters used by the JSON text format *)

Module Chars.

Definition dquote : ascii := "034"%char.
Definition backslash : ascii := "092"%char.
Definition slash : ascii := "/"%char.
Definition backspace : ascii := "008"%char.
Definition tab : ascii := "009"%char.
Definition newline : ascii := "010"%char.
Definition formfeed : ascii := "012"%char.
Definition creturn : ascii := "013"%char.
Definition space : ascii := " "%char.

Definition is_ws (c : ascii) : bool :=
  Ascii.eqb c space || Ascii.eqb c tab || Ascii.eqb c newline || Ascii.eqb c creturn.

Definition is_control (c : ascii) : bool := (N_of_ascii c <? 32)%N.

Definition is_digit (c : ascii) : bool :=
  ((48 <=? N_of_ascii c) && (N_of_ascii c <=? 57))%N.

Definition hex_digit (n : N) : ascii :=
  if (n <? 10)%N then ascii_of_N (48 + n) else ascii_of_N (87 + n).

Definition hex_value (c : ascii) : option N :=
  let n := N_of_ascii c in
  if ((48 <=? n) && (n <=? 57))%N then Some (n - 48)%N
  else if ((97 <=? n) && (n <=? 102))%N then Some (n - 87)%N
  else if ((65 <=? n) && (n <=? 70))%N then Some (n - 55)%N
  else None.

(** A UTF-16 code unit written as one to three bytes (the UTF-8 layout
    applied to a single unit): strings of the embedding are byte strings. *)
Definition bytes_of_unit (n : N) : string :=
  if (n <? 128)%N then String (ascii_of_N n) EmptyString
  else if (n <? 2048)%N then
    String (ascii_of_N (192 + n / 64))
      (String (ascii_of_N (128 + n mod 64)) EmptyString)
  else
    String (ascii_of_N (224 + n / 4096))
      (String (ascii_of_N (128 + (n / 64) mod 64))
        (String (ascii_of_N (128 + n mod 64)) EmptyString)).

End Chars.

(** ** The platform's JSON codec

    [JSON.stringify] and [JSON.parse] are built-ins of the host; the handlers
    of the command table only call them.  They are modelled here on the JSON
    grammar (RFC 8259): objects keep their members in source order, a number
    keeps its lexeme. *)

Module JSON.
Import Chars.

Inductive json : Type :=
  | JNull
  | JBool (b : bool)
  | JNumber (lexeme : string)
  | JString (s : string)
  | JArray (items : list json)
  | JObject (members : list (string * json)).

(** QuoteJSONString: the two-character escapes, [\u00xx] for the other
    control characters, every other character verbatim. *)
Definition escape_char (c : ascii) : string :=
  if Ascii.eqb c dquote then String backslash (String dquote EmptyString)
  else if Ascii.eqb c backslash then String backslash (String backslash EmptyString)
  else if Ascii.eqb c backspace then String backslash "b"
  else if Ascii.eqb c formfeed then String backslash "f"
  else if Ascii.eqb c newline then String backslash "n"
  else if Ascii.eqb c creturn then String backslash "r"
  else if Ascii.eqb c tab then String backslash "t"
  else if is_control c then
    String backslash
      (String "u" (String "0" (String "0"
        (String (hex_digit (N_of_ascii c / 16))
          (String (hex_digit (N_of_ascii c mod 16)) EmptyString)))))
  else String c EmptyString.

Fixpoint escape (s : string) : string :=
  match s with
  | EmptyString => EmptyString
  | String c rest => escape_char c +:+ escape rest
  end.

Definition quote (s : string) : string :=
  String dquote (escape s +:+ String dquote EmptyString).

Section Join.
Variable render : json -> string.

Fixpoint join_elements (l : list json) : string :=
  match l with
  | [] => EmptyString
  | [x] => render x
  | x :: l' => render x +:+ "," +:+ join_elements l'
  end.

Fixpoint join_members (l : list (string * json)) : string :=
  match l with
  | [] => EmptyString
  | [(k, x)] => quote k +:+ ":" +:+ render x
  | (k, x) :: l' => quote k +:+ ":" +:+ render x +:+ "," +:+ join_members l'
  end.
End Join.

Fixpoint stringify (v : json) : string :=
  match v with
  | JNull => "null"
  | JBool true => "true"
  | JBool false => "false"
  | JNumber lexeme => lexeme
  | JString s => quote s
  | JArray items => "[" +:+ join_elements stringify items +:+ "]"
  | JObject members => "{" +:+ join_members stringify members +:+ "}"
  end.

(** *** Parsing *)

Fixpoint skip_ws (s : string) : string :=
  match s with
  | String c rest => if is_ws c then skip_ws rest else s
  | EmptyString => EmptyString
  end.

Definition simple_escape (e : ascii) : option ascii :=
  if Ascii.eqb e dquote then Some dquote
  else if Ascii.eqb e backslash then Some backslash
  else if Ascii.eqb e slash then Some slash
  else if Ascii.eqb e "b" then Some backspace
  else if Ascii.eqb e "f" then Some formfeed
  else if Ascii.eqb e "n" then Some newline
  else if Ascii.eqb e "r" then Some creturn
  else if Ascii.eqb e "t" then Some tab
  else None.

Definition hex4 (h1 h2 h3 h4 : ascii) : option N :=
  match hex_value h1, hex_value h2, hex_value h3, hex_value h4 with
  | Some a, Some b, Some c, Some d => Some (((a * 16 + b) * 16 + c) * 16 + d)%N
  | _, _, _, _ => None
  end.

(** The characters of a string literal after its opening quote, up to and
    including the closing quote; returns the decoded string and the rest. *)
Fixpoint parse_chars (s : string) : option (string * string) :=
  match s with
  | EmptyString => None
  | String c rest =>
      if Ascii.eqb c dquote then Some (EmptyString, rest)
      else if Ascii.eqb c backslash then
        match rest with
        | String e rest1 =>
            if Ascii.eqb e "u" then
              match rest1 with
              | String h1 (String h2 (String h3 (String h4 rest2))) =>
                  match hex4 h1 h2 h3 h4 with
                  | Some n =>
                      match parse_chars rest2 with
                      | Some (t, out) => Some (bytes_of_unit n +:+ t, out)
                      | None => None
                      end
                  | None => None
                  end
              | _ => None
              end
            else
              match simple_escape e with
              | Some d =>
                  match parse_chars rest1 with
                  | Some (t, out) => Some (String d t, out)
                  | None => None
                  end
              | None => None
              end
        | EmptyString => None
        end
      else if is_control c then None
      else
        match parse_chars rest with
        | Some (t, out) => Some (String c t, out)
        | None => None
        end
  end.

Fixpoint take_digits (s : string) : string * string :=
  match s with
  | String c rest =>
      if is_digit c then let (d, out) := take_digits rest in (String c d, out)
      else (EmptyString, s)
  | EmptyString => (EmptyString, EmptyString)
  end.

(** number = [ minus ] int [ frac ] [ exp ] *)
Definition parse_number (s : string) : option (string * string) :=
  let (sign, s1) :=
    match s with
    | String "-" r => ("-", r)
    | _ => (EmptyString, s)
    end in
  let (int, s2) := take_digits s1 in
  match int with
  | EmptyString => None
  | String "0" (String _ _) => None
  | _ =>
      let frac :=
        match s2 with
        | String "." r =>
            let (d, out) := take_digits r in
            match d with
            | EmptyString => None
            | _ => Some ("." +:+ d, out)
            end
        | _ => Some (EmptyString, s2)
        end in
      match frac with
      | None => None
      | Some (f, s3) =>
          let exp :=
            match s3 with
            | String e r =>
                if Ascii.eqb e "e" || Ascii.eqb e "E" then
                  let (sg, r1) :=
                    match r with
                    | String "+" r' => ("+", r')
                    | String "-" r' => ("-", r')
                    | _ => (EmptyString, r)
                    end in
                  let (d, out) := take_digits r1 in
                  match d with
                  | EmptyString => None
                  | _ => Some (String e sg +:+ d, out)
                  end
                else Some (EmptyString, s3)
            | EmptyString => Some (EmptyString, s3)
            end in
          match exp with
          | None => None
          | Some (x, s4) => Some (sign +:+ int +:+ f +:+ x, s4)
          end
      end
  end.

(** The rest of [s] after the literal [lit], when [s] starts with it. *)
Fixpoint expect (lit s : string) : option string :=
  match lit with
  | EmptyString => Some s
  | String a lit' =>
      match s with
      | String b s' => if Ascii.eqb a b then expect lit' s' else None
      | EmptyString => None
      end
  end.

Fixpoint parse_value (fuel : nat) (s : string) {struct fuel} : option (json * string) :=
  match fuel with
  | O => None
  | S fuel' =>
      match skip_ws s with
      | EmptyString => None
      | String c rest =>
          if Ascii.eqb c "{" then
            match skip_ws rest with
            | String "}" out => Some (JObject [], out)
            | _ => parse_members fuel' rest []
            end
          else if Ascii.eqb c "[" then
            match skip_ws rest with
            | String "]" out => Some (JArray [], out)
            | _ => parse_elements fuel' rest []
            end
          else if Ascii.eqb c dquote then
            match parse_chars rest with
            | Some (t, out) => Some (JString t, out)
            | None => None
            end
          else if Ascii.eqb c "t" then
            match expect "rue" rest with
            | Some out => Some (JBool true, out)
            | None => None
            end
          else if Ascii.eqb c "f" then
            match expect "alse" rest with
            | Some out => Some (JBool false, out)
            | None => None
            end
          else if Ascii.eqb c "n" then
            match expect "ull" rest with
            | Some out => Some (JNull, out)
            | None => None
            end
          else
            match parse_number (String c rest) with
            | Some (lexeme, out) => Some (JNumber lexeme, out)
            | None => None
            end
      end
  end
with parse_members (fuel : nat) (s : string) (acc : list (string * json))
    {struct fuel} : option (json * string) :=
  match fuel with
  | O => None
  | S fuel' =>
      match skip_ws s with
      | String c rest =>
          if Ascii.eqb c dquote then
            match parse_chars rest with
            | Some (k, s1) =>
                match skip_ws s1 with
                | String ":" s2 =>
                    match parse_value fuel' s2 with
                    | Some (v, s3) =>
                        match skip_ws s3 with
                        | String "," s4 => parse_members fuel' s4 (acc ++ [(k, v)])
                        | String "}" out => Some (JObject (acc ++ [(k, v)]), out)
                        | _ => None
                        end
                    | None => None
                    end
                | _ => None
                end
            | None => None
            end
          else None
      | EmptyString => None
      end
  end
with parse_elements (fuel : nat) (s : string) (acc : list json)
    {struct fuel} : option (json * string) :=
  match fuel with
  | O => None
  | S fuel' =>
      match parse_value fuel' s with
      | Some (v, s1) =>
          match skip_ws s1 with
          | String "," s2 => parse_elements fuel' s2 (acc ++ [v])
          | String "]" out => Some (JArray (acc ++ [v]), out)
          | _ => None
          end
      | None => None
      end
  end.

(** [JSON.parse]: one value, surrounded by optional white space; [None]
    stands for the SyntaxError the built-in throws. *)
Definition parse (s : string) : option json :=
  match parse_value (S (String.length s)) s with
  | Some (v, out) =>
      match skip_ws out with
      | EmptyString => Some v
      | _ => None
      end
  | None => None
  end.

(** Property read on a parsed object: of two members with one key the later
    one wins, as in the object [JSON.parse] builds. *)
Fixpoint get_member (k : string) (members : list (string * json)) : option json :=
  match members with
  | [] => None
  | (k', v) :: rest =>
      match get_member k rest with
      | Some v' => Some v'
      | None => if String.eqb k' k then Some v else None
      end
  end.

(** Values without nesting: the members of a settings document. *)
Definition flat (v : json) : Prop :=
  match v with
  | JBool _ | JString _ => True
  | _ => False
  end.

End JSON.


(** ** Exits of an effect, errors and defects *)

(** Values that JavaScript code throws, or that a promise rejects with. *)
Inductive Thrown : Type :=
  | TypeError (message : string)
  | SyntaxError
  | ZodError
  | DOMException (name : string)
  | Rejection (reason : string).

(** The tagged errors of the typed failure channel.  [RoutingError] is the
    error of the specified dispatcher; nothing in [commands.ts] constructs
    it. *)
Inductive Error : Type :=
  | InvokeCommandError (message : string) (origError : option Thrown)
  | ExtensionStorageError (message : string)
  | RecorderError (message : string)
  | NoSuchElementException
  | RoutingError.

Inductive Exit (A : Type) : Type :=
  | Success (a : A)
  | Failure (e : Error)
  | Die (t : Thrown).
Arguments Success {A} a.
Arguments Failure {A} e.
Arguments Die {A} t.

Definition is_success {A} (x : Exit A) : bool :=
  match x with Success _ => true | _ => false end.

Definition is_failure {A} (x : Exit A) : bool :=
  match x with Failure _ => true | _ => false end.

(** ** Data of the command table *)

Inductive ExecutionContext : Type :=
  | Popup
  | BackgroundServiceWorker
  | GlobalContentScript
  | WhisperingContentScript.

(** [z.infer<typeof settingsSchema>] *)
Record Settings : Type := {
  isPlaySoundEnabled : bool;
  isCopyToClipboardEnabled : bool;
  isPasteContentsOnSuccessEnabled : bool;
  selectedAudioInputDeviceId : string;
  currentLocalShortcut : string;
  currentGlobalShortcut : string;
  apiKey : string;
  outputLanguage : string
}.

Record Toast : Type := {
  title : string;
  description : option string
}.

Record MediaDeviceInfo : Type := {
  deviceId : string;
  label : string
}.

Record Tab : Type := {
  tab_id : option Z;
  tab_url : string;
  tab_pinned : bool;
  tab_active : bool
}.

Inductive Cue : Type := startSound | stopSound | cancelSound.

(** What an invocation does to the outside, in the order it happens. *)
Inductive Event : Type :=
  | Alert (message : string)
  | Play (cue : Cue)
  | LogInfo (message : string)
  | LogError (message : string)
  | RuntimeSendMessage (commandName : string)
  | TabsSendMessage (tabId : Z) (commandName : string)
  | TabsCreate (url : string)
  | OpenOptionsPage
  | StartRecording (device : string)
  | StopRecording
  | CancelRecording.

(** ** The world the handlers run in *)

(** [window.localStorage] of the Whispering page.  A storage that is denied
    raises on every access; a full one raises on [setItem]. *)
Record LocalStorage : Type := {
  ls_items : gmap string string;
  ls_denied : bool;
  ls_full : bool
}.

(** How the collaborators of [commands.ts] answer (browser API,
    [RecorderServiceLive], [RecorderStateLive], [ExtensionStorageLive]); the
    handlers below are defined for every way they can. *)
Record Env : Type := {
  tabs_query_rejects : bool;
  tabs_create_rejects : bool;
  tabs_create_without_id : bool;
  tabs_sendMessage_rejects : bool;
  runtime_sendMessage_rejects : bool;
  runtime_openOptionsPage_rejects : bool;
  enumerateRecordingDevices_result : Error + list MediaDeviceInfo;
  startRecording_error : string -> option Error;
  stopRecording_error : option Error;
  cancelRecording_error : option Error;
  recorderState_get_error : option Error;
  recorderState_set_error : option Error;
  extensionStorage_set_error : option Error
}.

Record World : Type := {
  recorderState : string;
  tabs : list Tab;
  next_tab_id : Z;
  localStorage : LocalStorage;
  toastSlot : option Toast;
  trace : list Event;
  env : Env
}.

Definition with_recorderState (v : string) (w : World) : World :=
  {| recorderState := v; tabs := tabs w; next_tab_id := next_tab_id w;
     localStorage := localStorage w; toastSlot := toastSlot w;
     trace := trace w; env := env w |}.

Definition with_tabs (l : list Tab) (n : Z) (w : World) : World :=
  {| recorderState := recorderState w; tabs := l; next_tab_id := n;
     localStorage := localStorage w; toastSlot := toastSlot w;
     trace := trace w; env := env w |}.

Definition with_localStorage (ls : LocalStorage) (w : World) : World :=
  {| recorderState := recorderState w; tabs := tabs w; next_tab_id := next_tab_id w;
     localStorage := ls; toastSlot := toastSlot w;
     trace := trace w; env := env w |}.

Definition with_toastSlot (t : option Toast) (w : World) : World :=
  {| recorderState := recorderState w; tabs := tabs w; next_tab_id := next_tab_id w;
     localStorage := localStorage w; toastSlot := t;
     trace := trace w; env := env w |}.

Definition with_event (e : Event) (w : World) : World :=
  {| recorderState := recorderState w; tabs := tabs w; next_tab_id := next_tab_id w;
     localStorage := localStorage w; toastSlot := toastSlot w;
     trace := trace w ++ [e]; env := env w |}.

(** ** The effect monad *)

Definition Eff (A : Type) : Type := World -> Exit A * World.

Definition succeed {A} (a : A) : Eff A := fun w => (Success a, w).
Definition fail {A} (e : Error) : Eff A := fun w => (Failure e, w).
Definition die {A} (t : Thrown) : Eff A := fun w => (Die t, w).

Definition bind {A B} (m : Eff A) (k : A -> Eff B) : Eff B :=
  fun w =>
    match m w with
    | (Success a, w') => k a w'
    | (Failure e, w') => (Failure e, w')
    | (Die t, w') => (Die t, w')
    end.

Notation "x <- m ;; k" := (bind m (fun x => k))
  (at level 100, m at next level, right associativity).
Notation "m ;;; k" := (bind m (fun _ => k))
  (at level 100, right associativity).

(** [Effect.catchAll]: recovers from typed failures, not from defects. *)
Definition catchAll {A} (m : Eff A) (h : Error -> Eff A) : Eff A :=
  fun w =>
    match m w with
    | (Failure e, w') => h e w'
    | r => r
    end.

(** [Effect.mapError] *)
Definition mapError {A} (m : Eff A) (f : Error -> Error) : Eff A :=
  fun w =>
    match m w with
    | (Failure e, w') => (Failure (f e), w')
    | r => r
    end.

Definition gets {A} (f : World -> A) : Eff A := fun w => (Success (f w), w).
Definition modify (f : World -> World) : Eff unit := fun w => (Success tt, f w).
Definition emit (e : Event) : Eff unit := modify (with_event e).
Definition when (b : bool) (m : Eff unit) : Eff unit := if b then m else succeed tt.

Definition run {A} (m : Eff A) (w : World) : Exit A := fst (m w).
Definition exec {A} (m : Eff A) (w : World) : World := snd (m w).

(** Number of events of a trace that satisfy [p]. *)
Definition count (p : Event -> bool) (l : list Event) : nat :=
  length (List.filter p l).

(** ** Bridges from JavaScript to effects

    Synchronous code that throws and promises that reject are written as
    computations that end in [Die]; the constructors of the effect library
    decide what becomes of it. *)

(** [Effect.try({ try, catch })] and [Effect.tryPromise({ try, catch })]:
    what is thrown or rejected becomes a typed failure. *)
Definition Effect_try {A} (body : Eff A) (catch : Thrown -> Error) : Eff A :=
  fun w =>
    match body w with
    | (Die t, w') => (Failure (catch t), w')
    | r => r
    end.

Definition Effect_tryPromise {A} (promise : Eff A) (catch : Thrown -> Error) : Eff A :=
  Effect_try promise catch.

(** [Effect.promise]: a rejection stays a defect. *)
Definition Effect_promise {A} (promise : Eff A) : Eff A := promise.

(** [Effect.flatMap(Option.fromNullable)]: an absent value is the failure
    of an empty [Option]. *)
Definition flatMap_fromNullable {A} (m : Eff (option A)) : Eff A :=
  x <- m ;;
  match x with
  | Some a => succeed a
  | None => fail NoSuchElementException
  end.

Definition Effect_logInfo (message : string) : Eff unit := emit (LogInfo message).
Definition Effect_logError (message : string) : Eff unit := emit (LogError message).
Definition alert (message : string) : Eff unit := emit (Alert message).
Definition play (cue : Cue) : Eff unit := emit (Play cue).

(** ** Browser primitives *)

(** A match pattern whose path is a wild card covers the URLs that start
    with the text before the star. *)
Fixpoint match_pattern (pattern url : string) : bool :=
  match pattern with
  | String "*" EmptyString => true
  | String a p' =>
      match url with
      | String b u' => Ascii.eqb a b && match_pattern p' u'
      | EmptyString => false
      end
  | EmptyString =>
      match url with
      | EmptyString => true
      | String _ _ => false
      end
  end.

Fixpoint has_slash (s : string) : bool :=
  match s with
  | String c rest => Ascii.eqb c "/" || has_slash rest
  | EmptyString => false
  end.

(** The browser gives a URL without a path the root path. *)
Definition canonical_url (url : string) : string :=
  match index 0 "://" url with
  | Some i =>
      if has_slash (substring (i + 3) (String.length url - (i + 3)) url)
      then url else url +:+ "/"
  | None => url
  end.

Definition chrome_tabs_query (select : Tab -> bool) : Eff (list Tab) :=
  fun w =>
    if tabs_query_rejects (env w) then (Die (Rejection "tabs.query"), w)
    else (Success (List.filter select (tabs w)), w).

Definition deactivate (t : Tab) : Tab :=
  {| tab_id := tab_id t; tab_url := tab_url t; tab_pinned := tab_pinned t;
     tab_active := false |}.

Definition chrome_tabs_create (url : string) (active pinned : bool) : Eff Tab :=
  emit (TabsCreate url) ;;;
  fun w =>
    if tabs_create_rejects (env w) then (Die (Rejection "tabs.create"), w)
    else
      let t := {| tab_id := if tabs_create_without_id (env w) then None
                            else Some (next_tab_id w);
                  tab_url := canonical_url url;
                  tab_pinned := pinned;
                  tab_active := active |} in
      let others := if active then List.map deactivate (tabs w) else tabs w in
      (Success t, with_tabs (others ++ [t]) (next_tab_id w + 1) w).

Definition has_id (i : Z) (t : Tab) : bool :=
  match tab_id t with
  | Some j => Z.eqb i j
  | None => false
  end.

(** [chrome.tabs.sendMessage(tabId, message)]: resolves with the answer of
    the listener in that tab and rejects when there is no such tab or nobody
    answers there.  The answer is the success value of the listener; a
    listener that ends otherwise leaves the message without an answer. *)
Definition chrome_tabs_sendMessage {R} (tabId : Z) (commandName : string)
    (listener : Eff R) : Eff R :=
  emit (TabsSendMessage tabId commandName) ;;;
  fun w =>
    if tabs_sendMessage_rejects (env w) || negb (existsb (has_id tabId) (tabs w))
    then (Die (Rejection "Could not establish connection"), w)
    else
      match listener w with
      | (Success r, w') => (Success r, w')
      | (_, w') => (Die (Rejection "The message port closed before a response was received"), w')
      end.

(** [chrome.runtime.sendMessage(message)], answered by the background in the
    same way. *)
Definition chrome_runtime_sendMessage {R} (commandName : string)
    (listener : Eff R) : Eff R :=
  emit (RuntimeSendMessage commandName) ;;;
  fun w =>
    if runtime_sendMessage_rejects (env w)
    then (Die (Rejection "Could not establish connection"), w)
    else
      match listener w with
      | (Success r, w') => (Success r, w')
      | (_, w') => (Die (Rejection "The message port closed before a response was received"), w')
      end.

Definition chrome_runtime_openOptionsPage : Eff unit :=
  emit OpenOptionsPage ;;;
  fun w =>
    if runtime_openOptionsPage_rejects (env w)
    then (Die (Rejection "Could not create an options page"), w)
    else (Success tt, w).

(** ** [localStorage] *)

Definition localStorage_getItem (key : string) : Eff (option string) :=
  fun w =>
    if ls_denied (localStorage w) then (Die (DOMException "SecurityError"), w)
    else (Success (ls_items (localStorage w) !! key), w).

Definition localStorage_setItem (key value : string) : Eff unit :=
  fun w =>
    let ls := localStorage w in
    if ls_denied ls then (Die (DOMException "SecurityError"), w)
    else if ls_full ls then (Die (DOMException "QuotaExceededError"), w)
    else
      (Success tt,
       with_localStorage
         {| ls_items := <[key := value]> (ls_items ls);
            ls_denied := ls_denied ls; ls_full := ls_full ls |} w).

(** ** Settings *)

Import JSON.

Definition zod_boolean (v : option json) : option bool :=
  match v with
  | Some (JBool b) => Some b
  | _ => None
  end.

Definition zod_string (v : option json) : option string :=
  match v with
  | Some (JString s) => Some s
  | _ => None
  end.

(** [settingsSchema.parse]: an object whose eight members have the declared
    types; other members are dropped.  [None] stands for the ZodError. *)
Definition settingsSchema_parse (v : json) : option Settings :=
  match v with
  | JObject m =>
      match zod_boolean (get_member "isPlaySoundEnabled" m),
            zod_boolean (get_member "isCopyToClipboardEnabled" m),
            zod_boolean (get_member "isPasteContentsOnSuccessEnabled" m),
            zod_string (get_member "selectedAudioInputDeviceId" m),
            zod_string (get_member "currentLocalShortcut" m),
            zod_string (get_member "currentGlobalShortcut" m),
            zod_string (get_member "apiKey" m),
            zod_string (get_member "outputLanguage" m) with
      | Some a, Some b, Some c, Some d, Some e, Some f, Some g, Some h =>
          Some {| isPlaySoundEnabled := a;
                  isCopyToClipboardEnabled := b;
                  isPasteContentsOnSuccessEnabled := c;
                  selectedAudioInputDeviceId := d;
                  currentLocalShortcut := e;
                  currentGlobalShortcut := f;
                  apiKey := g;
                  outputLanguage := h |}
      | _, _, _, _, _, _, _, _ => None
      end
  | _ => None
  end.

(** A settings object as the JSON value [JSON.stringify] walks. *)
Definition Settings_to_json (s : Settings) : json :=
  JObject
    [ ("isPlaySoundEnabled", JBool (isPlaySoundEnabled s));
      ("isCopyToClipboardEnabled", JBool (isCopyToClipboardEnabled s));
      ("isPasteContentsOnSuccessEnabled", JBool (isPasteContentsOnSuccessEnabled s));
      ("selectedAudioInputDeviceId", JString (selectedAudioInputDeviceId s));
      ("currentLocalShortcut", JString (currentLocalShortcut s));
      ("currentGlobalShortcut", JString (currentGlobalShortcut s));
      ("apiKey", JString (apiKey s));
      ("outputLanguage", JString (outputLanguage s)) ].

Definition JSON_stringify (s : Settings) : string := stringify (Settings_to_json s).

(** The [defaultValue] of [getSettings]. *)
Definition defaultSettings : Settings :=
  {| isPlaySoundEnabled := true;
     isCopyToClipboardEnabled := true;
     isPasteContentsOnSuccessEnabled := true;
     selectedAudioInputDeviceId := EmptyString;
     currentLocalShortcut := "space";
     currentGlobalShortcut := EmptyString;
     apiKey := EmptyString;
     outputLanguage := "en" |}.

Definition settings_key : string := "whispering-settings".

(** [getLocalStorage({ key, schema, defaultValue })] at the settings schema. *)
Definition getLocalStorage (key : string) (schema : json -> option Settings)
    (defaultValue : Settings) : Eff Settings :=
  catchAll
    (Effect_try
       (valueFromStorage <- localStorage_getItem key ;;
        match valueFromStorage with
        | None => succeed defaultValue
        | Some text =>
            match JSON.parse text with
            | None => die SyntaxError
            | Some v =>
                match schema v with
                | None => die ZodError
                | Some s => succeed s
                end
            end
        end)
       (fun error =>
          InvokeCommandError ("Error getting from local storage for key: " +:+ key)
            (Some error)))
    (fun _ => succeed defaultValue).

Definition setLocalStorage (key value : string) : Eff unit :=
  Effect_try (localStorage_setItem key value)
    (fun error =>
       InvokeCommandError ("Error setting in local storage for key: " +:+ key)
         (Some error)).

Definition getSettings_runInWhisperingContentScript : Eff Settings :=
  getLocalStorage settings_key settingsSchema_parse defaultSettings.

Definition setSettings_runInWhisperingContentScript (settings : Settings) : Eff unit :=
  setLocalStorage settings_key (JSON_stringify settings).

(** ** Peer locator *)

Definition whispering_pattern : string := "http://localhost:5173/*".
Definition whispering_url : string := "http://localhost:5173".

Definition is_whispering (t : Tab) : bool := match_pattern whispering_pattern (tab_url t).

Definition getOrCreateWhisperingTabId : Eff Z :=
  mapError
    (flatMap_fromNullable
       (tabs <- Effect_promise (chrome_tabs_query is_whispering) ;;
        match tabs with
        | first :: _ =>
            match List.find tab_pinned tabs with
            | Some tab => succeed (tab_id tab)
            | None => succeed (tab_id first)
            end
        | [] =>
            newTab <- Effect_promise (chrome_tabs_create whispering_url false true) ;;
            succeed (tab_id newTab)
        end))
    (fun _ => InvokeCommandError "Error getting or creating Whispering tab" None).

Definition getActiveTabId : Eff Z :=
  activeTabs <- Effect_tryPromise (chrome_tabs_query tab_active)
                  (fun error => InvokeCommandError "Error getting active tabs" (Some error)) ;;
  match activeTabs with
  | [] => die (TypeError "Cannot read properties of undefined (reading 'id')")
  | firstActiveTab :: _ =>
      match tab_id firstActiveTab with
      | Some i =>
          if Z.eqb i 0 then fail (InvokeCommandError "No active tab ID found" None)
          else succeed i
      | None => fail (InvokeCommandError "No active tab ID found" None)
      end
  end.

(** ** Messages and transport *)

(** [MessageToContext<C>]: a command name with the arguments of the command,
    indexed by the type of the answer. *)
Inductive BackgroundMessage : Type -> Type :=
  | Msg_openOptionsPage : BackgroundMessage unit
  | Msg_getCurrentTabId : BackgroundMessage (option Z).

Inductive WhisperingMessage : Type -> Type :=
  | Msg_getSettings : WhisperingMessage Settings
  | Msg_setSettings (settings : Settings) : WhisperingMessage unit.

Inductive GlobalMessage : Type -> Type :=
  | Msg_toggleRecording : GlobalMessage unit
  | Msg_cancelRecording : GlobalMessage unit
  | Msg_sendErrorToast (toast : Toast) : GlobalMessage unit.

Definition background_commandName {R} (m : BackgroundMessage R) : string :=
  match m with
  | Msg_openOptionsPage => "openOptionsPage"
  | Msg_getCurrentTabId => "getCurrentTabId"
  end.

Definition whispering_commandName {R} (m : WhisperingMessage R) : string :=
  match m with
  | Msg_getSettings => "getSettings"
  | Msg_setSettings _ => "setSettings"
  end.

Definition global_commandName {R} (m : GlobalMessage R) : string :=
  match m with
  | Msg_toggleRecording => "toggleRecording"
  | Msg_cancelRecording => "cancelRecording"
  | Msg_sendErrorToast _ => "sendErrorToast"
  end.

(** *** Commands of the background service worker *)

Definition openOptionsPage_runInBackgroundServiceWorker : Eff unit :=
  Effect_tryPromise chrome_runtime_openOptionsPage
    (fun e => InvokeCommandError "Error opening options page" (Some e)).

Definition getCurrentTabId_runInBackgroundServiceWorker : Eff (option Z) :=
  activeTabs <- Effect_tryPromise (chrome_tabs_query tab_active)
                  (fun error => InvokeCommandError "Error getting active tabs" (Some error)) ;;
  match activeTabs with
  | [] => fail (InvokeCommandError "No active tab found" None)
  | firstActiveTab :: _ => succeed (tab_id firstActiveTab)
  end.

(** Modelled from the spec: the message listener of the background service
    worker, which is not part of [commands.ts].  A message for a command is
    answered by the command's native handler run in its native context. *)
Definition backgroundListener {R} (m : BackgroundMessage R) : Eff R :=
  match m with
  | Msg_openOptionsPage => openOptionsPage_runInBackgroundServiceWorker
  | Msg_getCurrentTabId => getCurrentTabId_runInBackgroundServiceWorker
  end.

(** Modelled from the spec: the message listener of the Whispering page,
    which is not part of [commands.ts].  A message for a command is answered
    by the command's native handler run in its native context. *)
Definition whisperingListener {R} (m : WhisperingMessage R) : Eff R :=
  match m with
  | Msg_getSettings => getSettings_runInWhisperingContentScript
  | Msg_setSettings settings => setSettings_runInWhisperingContentScript settings
  end.

Definition sendMessageToWhisperingContentScript {R} (message : WhisperingMessage R) : Eff R :=
  whisperingTabId <- getOrCreateWhisperingTabId ;;
  Effect_promise
    (chrome_tabs_sendMessage whisperingTabId (whispering_commandName message)
       (whisperingListener message)).

Definition sendMessageToBackground {R} (message : BackgroundMessage R) : Eff R :=
  Effect_promise
    (chrome_runtime_sendMessage (background_commandName message)
       (backgroundListener message)).

Definition openOptionsPage_invokeFromGlobalContentScript : Eff unit :=
  sendMessageToBackground Msg_openOptionsPage.

Definition getSettings_invokeFromGlobalContentScript : Eff Settings :=
  sendMessageToWhisperingContentScript Msg_getSettings.

Definition setSettings_invokeFromGlobalContentScript (settings : Settings) : Eff unit :=
  sendMessageToWhisperingContentScript (Msg_setSettings settings).

(** ** Recorder services *)

(** Modelled from the spec: [RecorderServiceLive], which is imported by
    [commands.ts].  Each operation is one request to the capture collaborator,
    which answers with success or with an error. *)
Definition enumerateRecordingDevices : Eff (list MediaDeviceInfo) :=
  fun w =>
    match enumerateRecordingDevices_result (env w) with
    | inl e => (Failure e, w)
    | inr devices => (Success devices, w)
    end.

Definition answer (e : option Error) : Eff unit :=
  match e with
  | Some err => fail err
  | None => succeed tt
  end.

Definition recorderService_startRecording (device : string) : Eff unit :=
  emit (StartRecording device) ;;;
  (e <- gets (fun w => startRecording_error (env w) device) ;; answer e).

Definition recorderService_stopRecording : Eff unit :=
  emit StopRecording ;;;
  (e <- gets (fun w => stopRecording_error (env w)) ;; answer e).

Definition recorderService_cancelRecording : Eff unit :=
  emit CancelRecording ;;;
  (e <- gets (fun w => cancelRecording_error (env w)) ;; answer e).

(** Modelled from the spec: [RecorderStateLive], which is imported by
    [commands.ts].  The recorder state persists in the owning context across
    invocations; [get] reads the stored value and [set] overwrites it, unless
    the store fails. *)
Definition recorderStateService_get : Eff string :=
  e <- gets (fun w => recorderState_get_error (env w)) ;;
  answer e ;;;
  gets recorderState.

Definition recorderStateService_set (value : string) : Eff unit :=
  e <- gets (fun w => recorderState_set_error (env w)) ;;
  answer e ;;;
  modify (with_recorderState value).

(** Modelled from the spec: [ExtensionStorageLive], which is imported by
    [commands.ts].  [set] stores the toast for the notification collaborator. *)
Definition extensionStorage_set_toast (toast : Toast) : Eff unit :=
  e <- gets (fun w => extensionStorage_set_error (env w)) ;;
  answer e ;;;
  modify (with_toastSlot (Some toast)).

(** ** Recorder commands *)

(** [{ ...oldSettings, selectedAudioInputDeviceId: firstAudioInput }] *)
Definition with_selectedAudioInputDeviceId (device : string) (s : Settings) : Settings :=
  {| isPlaySoundEnabled := isPlaySoundEnabled s;
     isCopyToClipboardEnabled := isCopyToClipboardEnabled s;
     isPasteContentsOnSuccessEnabled := isPasteContentsOnSuccessEnabled s;
     selectedAudioInputDeviceId := device;
     currentLocalShortcut := currentLocalShortcut s;
     currentGlobalShortcut := currentGlobalShortcut s;
     apiKey := apiKey s;
     outputLanguage := outputLanguage s |}.

Definition checkAndUpdateSelectedAudioInputDevice : Eff unit :=
  catchAll
    (settings <- getSettings_invokeFromGlobalContentScript ;;
     recordingDevices <- enumerateRecordingDevices ;;
     let isSelectedDeviceExists :=
       existsb (fun d => String.eqb (deviceId d) (selectedAudioInputDeviceId settings))
         recordingDevices in
     if negb isSelectedDeviceExists then
       match recordingDevices with
       | [] => die (TypeError "Cannot read properties of undefined (reading 'deviceId')")
       | first :: _ =>
           let firstAudioInput := deviceId first in
           oldSettings <- getSettings_invokeFromGlobalContentScript ;;
           setSettings_invokeFromGlobalContentScript
             (with_selectedAudioInputDeviceId firstAudioInput oldSettings)
       end
     else succeed tt)
    (fun error => succeed tt).

(** The object literal bound to [settings] inside [toggleRecording]. *)
Record ToggleSettings : Type := {
  toggle_apiKey : string;
  toggle_selectedAudioInputDeviceId : string;
  toggle_isPlaySoundEnabled : bool
}.

Definition toggleRecording_settings : ToggleSettings :=
  {| toggle_apiKey := EmptyString;
     toggle_selectedAudioInputDeviceId := EmptyString;
     toggle_isPlaySoundEnabled := true |}.

(** [!s] on a string *)
Definition is_empty (s : string) : bool :=
  match s with
  | EmptyString => true
  | String _ _ => false
  end.

(** The generator of [toggleRecording] from the binding of [settings] on. *)
Definition toggleRecording_from (settings : ToggleSettings) : Eff unit :=
  if is_empty (toggle_apiKey settings) then
    alert "Please set your API key in the extension options" ;;;
    openOptionsPage_invokeFromGlobalContentScript ;;;
    succeed tt
  else
    checkAndUpdateSelectedAudioInputDevice ;;;
    (recorderState <- recorderStateService_get ;;
     if String.eqb recorderState "IDLE" then
       recorderService_startRecording (toggle_selectedAudioInputDeviceId settings) ;;;
       when (toggle_isPlaySoundEnabled settings) (play startSound) ;;;
       Effect_logInfo "Recording started" ;;;
       recorderStateService_set "RECORDING"
     else if String.eqb recorderState "RECORDING" then
       recorderService_stopRecording ;;;
       when (toggle_isPlaySoundEnabled settings) (play stopSound) ;;;
       Effect_logInfo "Recording stopped" ;;;
       recorderStateService_set "IDLE"
     else
       Effect_logError "Invalid recorder state").

Definition toggleRecording_runInGlobalContentScript : Eff unit :=
  toggleRecording_from toggleRecording_settings.

Definition cancelRecording_runInGlobalContentScript : Eff unit :=
  settings <- getSettings_invokeFromGlobalContentScript ;;
  recorderState <- recorderStateService_get ;;
  recorderService_cancelRecording ;;;
  when (String.eqb recorderState "RECORDING" && isPlaySoundEnabled settings)
    (play cancelSound) ;;;
  Effect_logInfo "Recording cancelled" ;;;
  recorderStateService_set "IDLE".

Definition sendErrorToast_runInGlobalContentScript (toast : Toast) : Eff unit :=
  extensionStorage_set_toast toast.

(** Modelled from the spec: the message listener of the global content
    script, which is not part of [commands.ts].  A message for a command is
    answered by the command's native handler run in its native context. *)
Definition globalListener {R} (m : GlobalMessage R) : Eff R :=
  match m with
  | Msg_toggleRecording => toggleRecording_runInGlobalContentScript
  | Msg_cancelRecording => cancelRecording_runInGlobalContentScript
  | Msg_sendErrorToast toast => sendErrorToast_runInGlobalContentScript toast
  end.

Definition sendMessageToGlobalContentScript {R} (message : GlobalMessage R) : Eff R :=
  activeTabId <- getActiveTabId ;;
  Effect_promise
    (chrome_tabs_sendMessage activeTabId (global_commandName message)
       (globalListener message)).

Definition toggleRecording_invokeFromBackgroundServiceWorker : Eff unit :=
  sendMessageToGlobalContentScript Msg_toggleRecording.

Definition toggleRecording_invokeFromPopup : Eff unit :=
  sendMessageToGlobalContentScript Msg_toggleRecording.

Definition cancelRecording_invokeFromBackgroundServiceWorker : Eff unit :=
  sendMessageToGlobalContentScript Msg_cancelRecording.

Definition cancelRecording_invokeFromPopup : Eff unit :=
  sendMessageToGlobalContentScript Msg_cancelRecording.

(** ** The command table *)

Inductive CommandName : Type :=
  | openOptionsPage
  | getCurrentTabId
  | getSettings
  | setSettings
  | toggleRecording
  | cancelRecording
  | sendErrorToast.

(** The [NativeContext] parameter of each entry of [Commands]. *)
Definition nativeContext (c : CommandName) : ExecutionContext :=
  match c with
  | openOptionsPage | getCurrentTabId => BackgroundServiceWorker
  | getSettings | setSettings => WhisperingContentScript
  | toggleRecording | cancelRecording | sendErrorToast => GlobalContentScript
  end.

Definition Args (c : CommandName) : Type :=
  match c with
  | setSettings => Settings
  | sendErrorToast => Toast
  | _ => unit
  end.

Definition Result (c : CommandName) : Type :=
  match c with
  | getCurrentTabId => option Z
  | getSettings => Settings
  | _ => unit
  end.

Definition CommandFn (c : CommandName) : Type := Args c -> Eff (Result c).

(** The member [runIn<ctx>] of the object [commands.<c>], if it has one. *)
Definition runIn (c : CommandName) (ctx : ExecutionContext) : option (CommandFn c) :=
  match c, ctx with
  | openOptionsPage, BackgroundServiceWorker =>
      Some (fun _ => openOptionsPage_runInBackgroundServiceWorker)
  | getCurrentTabId, BackgroundServiceWorker =>
      Some (fun _ => getCurrentTabId_runInBackgroundServiceWorker)
  | getSettings, WhisperingContentScript =>
      Some (fun _ => getSettings_runInWhisperingContentScript)
  | setSettings, WhisperingContentScript =>
      Some setSettings_runInWhisperingContentScript
  | toggleRecording, GlobalContentScript =>
      Some (fun _ => toggleRecording_runInGlobalContentScript)
  | cancelRecording, GlobalContentScript =>
      Some (fun _ => cancelRecording_runInGlobalContentScript)
  | sendErrorToast, GlobalContentScript =>
      Some sendErrorToast_runInGlobalContentScript
  | _, _ => None
  end.

(** The member [invokeFrom<ctx>] of the object [commands.<c>], if it has one. *)
Definition invokeFrom (c : CommandName) (ctx : ExecutionContext) : option (CommandFn c) :=
  match c, ctx with
  | openOptionsPage, GlobalContentScript =>
      Some (fun _ => openOptionsPage_invokeFromGlobalContentScript)
  | getSettings, GlobalContentScript =>
      Some (fun _ => getSettings_invokeFromGlobalContentScript)
  | setSettings, GlobalContentScript =>
      Some setSettings_invokeFromGlobalContentScript
  | toggleRecording, BackgroundServiceWorker =>
      Some (fun _ => toggleRecording_invokeFromBackgroundServiceWorker)
  | toggleRecording, Popup =>
      Some (fun _ => toggleRecording_invokeFromPopup)
  | cancelRecording, BackgroundServiceWorker =>
      Some (fun _ => cancelRecording_invokeFromBackgroundServiceWorker)
  | cancelRecording, Popup =>
      Some (fun _ => cancelRecording_invokeFromPopup)
  | _, _ => None
  end.

Definition ExecutionContext_eqb (a b : ExecutionContext) : bool :=
  match a, b with
  | Popup, Popup
  | BackgroundServiceWorker, BackgroundServiceWorker
  | GlobalContentScript, GlobalContentScript
  | WhisperingContentScript, WhisperingContentScript => true
  | _, _ => false
  end.

(** The one member [runIn<ctx>] every entry of [Commands] has: the handler
    of the command in its native context. *)
Definition nativeHandler (c : CommandName) : CommandFn c :=
  match c with
  | openOptionsPage => fun _ => openOptionsPage_runInBackgroundServiceWorker
  | getCurrentTabId => fun _ => getCurrentTabId_runInBackgroundServiceWorker
  | getSettings => fun _ => getSettings_runInWhisperingContentScript
  | setSettings => setSettings_runInWhisperingContentScript
  | toggleRecording => fun _ => toggleRecording_runInGlobalContentScript
  | cancelRecording => fun _ => cancelRecording_runInGlobalContentScript
  | sendErrorToast => sendErrorToast_runInGlobalContentScript
  end.

(** Modelled from the spec: the dispatcher [invoke(commandName, callerContext,
    args)].  [commands.ts] has no such function: its callers name a member of
    [commands.<c>] themselves, and the [Command] type admits no member other
    than the handler and the shims of the table.  As specified, a call from
    the native context executes the handler inline; any other call locates
    the shim for the caller's context in the table of the source and, when
    there is none, fails with [RoutingError]. *)
Definition invoke (c : CommandName) (callerContext : ExecutionContext) (args : Args c) :
    Eff (Result c) :=
  if ExecutionContext_eqb callerContext (nativeContext c)
  then nativeHandler c args
  else match invokeFrom c callerContext with
       | Some shim => shim args
       | None => fail RoutingError
       end.

(** ** Observations on traces and concrete worlds *)

Definition is_open_configuration (e : Event) : bool :=
  match e with
  | RuntimeSendMessage name => String.eqb name "openOptionsPage"
  | _ => false
  end.

Definition is_capture (e : Event) : bool :=
  match e with
  | StartRecording _ | StopRecording | CancelRecording => true
  | _ => false
  end.

Definition is_cue (e : Event) : bool :=
  match e with
  | Play _ => true
  | _ => false
  end.

Definition is_cancel_cue (e : Event) : bool :=
  match e with
  | Play cancelSound => true
  | _ => false
  end.

Definition is_invalid_state_log (e : Event) : bool :=
  match e with
  | LogError message => String.eqb message "Invalid recorder state"
  | _ => false
  end.

Definition is_tab_creation (e : Event) : bool :=
  match e with
  | TabsCreate _ => true
  | _ => false
  end.

(** The settings document the Whispering page holds. *)
Definition persistedSettings (w : World) : Exit Settings :=
  run getSettings_runInWhisperingContentScript w.

(** Collaborators that all answer. *)
Definition quiet_env (devices : list MediaDeviceInfo) : Env :=
  {| tabs_query_rejects := false;
     tabs_create_rejects := false;
     tabs_create_without_id := false;
     tabs_sendMessage_rejects := false;
     runtime_sendMessage_rejects := false;
     runtime_openOptionsPage_rejects := false;
     enumerateRecordingDevices_result := inr devices;
     startRecording_error := fun _ => None;
     stopRecording_error := None;
     cancelRecording_error := None;
     recorderState_get_error := None;
     recorderState_set_error := None;
     extensionStorage_set_error := None |}.

Definition builtin_microphone : MediaDeviceInfo :=
  {| deviceId := "mic-1"; label := "Built-in microphone" |}.

Definition page_tab : Tab :=
  {| tab_id := Some 7%Z; tab_url := "https://example.org/";
     tab_pinned := false; tab_active := true |}.

Definition empty_storage : LocalStorage :=
  {| ls_items := ∅; ls_denied := false; ls_full := false |}.

Definition world_in (state : string) (storage : LocalStorage) (e : Env) : World :=
  {| recorderState := state;
     tabs := [page_tab];
     next_tab_id := 8%Z;
     localStorage := storage;
     toastSlot := None;
     trace := [];
     env := e |}.

(** An idle recorder, one page open, nothing stored, one microphone. *)
Definition idle_world : World :=
  world_in "IDLE" empty_storage (quiet_env [builtin_microphone]).

Definition alert_text : string := "Please set your API key in the extension options".

(** The prompt of the no-credential path. *)
Definition is_configuration_alert (e : Event) : bool :=
  match e with
  | Alert message => String.eqb message alert_text
  | _ => false
  end.

(** The world after the alert and after the message to the background. *)
Definition after_guard (w : World) : World :=
  with_event (RuntimeSendMessage "openOptionsPage") (with_event (Alert alert_text) w).

(** What the no-credential path of [toggleRecording] does, for an effect [m]
    run in [w]: the prompt, then one request to the background to open the
    configuration, which opens it unless the request is rejected; and nothing
    else. *)
Definition opens_configuration_only (m : Eff unit) (w : World) : Prop :=
  (exists rest,
      trace (exec m w) =
        trace w ++ Alert alert_text :: RuntimeSendMessage "openOptionsPage" :: rest /\
      (rest = [] \/ rest = [OpenOptionsPage])) /\
  count is_configuration_alert (trace (exec m w)) =
    S (count is_configuration_alert (trace w)) /\
  recorderState (exec m w) = recorderState w /\
  localStorage (exec m w) = localStorage w /\
  tabs (exec m w) = tabs w /\
  count is_open_configuration (trace (exec m w)) =
    S (count is_open_configuration (trace w)) /\
  count is_capture (trace (exec m w)) = count is_capture (trace w) /\
  count is_cue (trace (exec m w)) = count is_cue (trace w) /\
  count is_invalid_state_log (trace (exec m w)) =
    count is_invalid_state_log (trace w) /\
  (forall e, run m w <> Failure e) /\
  (runtime_sendMessage_rejects (env w) = false ->
   runtime_openOptionsPage_rejects (env w) = false ->
   run m w = Success tt).

Definition recording_world : World :=
  world_in "RECORDING" empty_storage (quiet_env [builtin_microphone]).

Definition stale_settings : Settings :=
  {| isPlaySoundEnabled := true;
     isCopyToClipboardEnabled := true;
     isPasteContentsOnSuccessEnabled := true;
     selectedAudioInputDeviceId := "unplugged-mic";
     currentLocalShortcut := "space";
     currentGlobalShortcut := EmptyString;
     apiKey := "sk-test";
     outputLanguage := "en" |}.

(** The persisted device is not among the enumerated ones. *)
Definition stale_device_world : World :=
  world_in "IDLE"
    {| ls_items := {[ settings_key := JSON_stringify stale_settings ]};
       ls_denied := false; ls_full := false |}
    (quiet_env [builtin_microphone]).

(** No input device at all. *)
Definition no_device_world : World :=
  world_in "IDLE"
    {| ls_items := {[ settings_key := JSON_stringify stale_settings ]};
       ls_denied := false; ls_full := false |}
    (quiet_env []).

(** A settings binding with a credential, as [toggleRecording] would read it
    from the persisted document. *)
Definition configured_settings : ToggleSettings :=
  {| toggle_apiKey := "sk-test";
     toggle_selectedAudioInputDeviceId := "mic-1";
     toggle_isPlaySoundEnabled := true |}.

(** The tab [chrome.tabs.create] adds for the locator in world [w]. *)
Definition created_tab (w : World) : Tab :=
  {| tab_id := if tabs_create_without_id (env w) then None else Some (next_tab_id w);
     tab_url := canonical_url whispering_url;
     tab_pinned := true;
     tab_active := false |}.

(** The exit of the locator for the identifier it resolved. *)
Definition locator_exit (id : option Z) : Exit Z :=
  match id with
  | Some i => Success i
  | None => Failure (InvokeCommandError "Error getting or creating Whispering tab" None)
  end.

(** The open tabs at the canonical address. *)
Definition whisperingTabs (w : World) : list Tab := List.filter is_whispering (tabs w).

(** A Whispering page open and pinned, next to another one that is not. *)
Definition unpinned_peer : Tab :=
  {| tab_id := Some 3%Z; tab_url := "http://localhost:5173/recordings";
     tab_pinned := false; tab_active := false |}.

Definition pinned_peer : Tab :=
  {| tab_id := Some 5%Z; tab_url := "http://localhost:5173/";
     tab_pinned := true; tab_active := false |}.

Definition two_peers_world : World :=
  {| recorderState := "IDLE";
     tabs := [unpinned_peer; page_tab; pinned_peer];
     next_tab_id := 8%Z;
     localStorage := empty_storage;
     toastSlot := None;
     trace := [];
     env := quiet_env [builtin_microphone] |}.

(** ** Vocabulary of the theorems *)

(** What counts as missing or corrupt storage for a key. *)
Definition missing_or_corrupt (key : string) (schema : JSON.json -> option Settings)
    (w : World) : Prop :=
  ls_denied (localStorage w) = true \/
  ls_items (localStorage w) !! key = None \/
  exists text,
    ls_items (localStorage w) !! key = Some text /\
    (JSON.parse text = None \/
     exists v, JSON.parse text = Some v /\ schema v = None).

(** [m] never changes what [f] observes of the world. *)
Definition stable {T A} (f : World -> T) (m : Eff A) : Prop :=
  forall w, f (exec m w) = f w.

(** What [f] observes does not depend on the event [e] being recorded, on the
    open tabs, on the page's storage. *)
Definition ignores_event {T} (f : World -> T) (e : Event) : Prop :=
  forall w, f (with_event e w) = f w.

Definition ignores_tabs {T} (f : World -> T) : Prop :=
  forall l n w, f (with_tabs l n w) = f w.

Definition ignores_storage {T} (f : World -> T) : Prop :=
  forall ls w, f (with_localStorage ls w) = f w.

(** Counting the events that satisfy [p]. *)
Definition tally (p : Event -> bool) (w : World) : nat := count p (trace w).

(** The world after an optional cue. *)
Definition cued (enabled : bool) (cue : Cue) (w : World) : World :=
  if enabled then with_event (Play cue) w else w.


(** The tab the locator picks among the open Whispering pages. *)
Definition chosen_tab (first : Tab) (rest : list Tab) : Tab :=
  match List.find tab_pinned (first :: rest) with
  | Some tab => tab
  | None => first
  end.

(** In [w] a Whispering page is open and the locator resolves to [i]. *)
Definition resolved (w : World) (i : Z) : Prop :=
  tabs_query_rejects (env w) = false /\
  exists first rest,
    whisperingTabs w = first :: rest /\ tab_id (chosen_tab first rest) = Some i.

(** ** More concrete worlds *)

(** A pinned Whispering page that has no identifier, next to one that has. *)
Definition anonymous_pinned_peer : Tab :=
  {| tab_id := None; tab_url := "http://localhost:5173/";
     tab_pinned := true; tab_active := false |}.

Definition anonymous_peer_world : World :=
  {| recorderState := "IDLE";
     tabs := [unpinned_peer; anonymous_pinned_peer; page_tab];
     next_tab_id := 8%Z;
     localStorage := empty_storage;
     toastSlot := None;
     trace := [];
     env := quiet_env [builtin_microphone] |}.

(** No tab is active. *)
Definition no_active_tab_world : World :=
  {| recorderState := "RECORDING";
     tabs := [unpinned_peer; pinned_peer];
     next_tab_id := 8%Z;
     localStorage := empty_storage;
     toastSlot := None;
     trace := [];
     env := quiet_env [builtin_microphone] |}.

(** The collaborators of [e], with other answers of the browser, of the
    recorder and of the state store. *)
Definition with_browser (query create send opens : bool) (e : Env) : Env :=
  {| tabs_query_rejects := query;
     tabs_create_rejects := create;
     tabs_create_without_id := tabs_create_without_id e;
     tabs_sendMessage_rejects := send;
     runtime_sendMessage_rejects := runtime_sendMessage_rejects e;
     runtime_openOptionsPage_rejects := opens;
     enumerateRecordingDevices_result := enumerateRecordingDevices_result e;
     startRecording_error := startRecording_error e;
     stopRecording_error := stopRecording_error e;
     cancelRecording_error := cancelRecording_error e;
     recorderState_get_error := recorderState_get_error e;
     recorderState_set_error := recorderState_set_error e;
     extensionStorage_set_error := extensionStorage_set_error e |}.

Definition with_recorder (start stop cancel setter : option Error) (e : Env) : Env :=
  {| tabs_query_rejects := tabs_query_rejects e;
     tabs_create_rejects := tabs_create_rejects e;
     tabs_create_without_id := tabs_create_without_id e;
     tabs_sendMessage_rejects := tabs_sendMessage_rejects e;
     runtime_sendMessage_rejects := runtime_sendMessage_rejects e;
     runtime_openOptionsPage_rejects := runtime_openOptionsPage_rejects e;
     enumerateRecordingDevices_result := enumerateRecordingDevices_result e;
     startRecording_error := fun _ => start;
     stopRecording_error := stop;
     cancelRecording_error := cancel;
     recorderState_get_error := recorderState_get_error e;
     recorderState_set_error := setter;
     extensionStorage_set_error := extensionStorage_set_error e |}.

Definition stored (s : Settings) : LocalStorage :=
  {| ls_items := {[ settings_key := JSON_stringify s ]};
     ls_denied := false; ls_full := false |}.

(** The message of the locator's only typed failure. *)
Definition locator_error : Error :=
  InvokeCommandError "Error getting or creating Whispering tab" None.

Definition is_tab_message (e : Event) : bool :=
  match e with
  | TabsSendMessage _ _ => true
  | _ => false
  end.

(** The recorder asked to cancel, and nothing else of it. *)
Definition is_cancel_request (e : Event) : bool :=
  match e with
  | CancelRecording => true
  | _ => false
  end.

(** The command [cancelRecording] sent to the tab [tabId]. *)
Definition is_cancel_message (tabId : Z) (e : Event) : bool :=
  match e with
  | TabsSendMessage i name => Z.eqb i tabId && String.eqb name "cancelRecording"
  | _ => false
  end.

Definition is_options_page (e : Event) : bool :=
  match e with
  | OpenOptionsPage => true
  | _ => false
  end.

Definition active_tabs_error : Error :=
  InvokeCommandError "Error getting active tabs" (Some (Rejection "tabs.query")).

Definition no_active_tab_id_error : Error :=
  InvokeCommandError "No active tab ID found" None.

(** The first active tab is the tab numbered zero. *)
Definition tab_zero_world : World :=
  {| recorderState := "IDLE";
     tabs := [ {| tab_id := Some 0%Z; tab_url := "https://example.org/";
                  tab_pinned := false; tab_active := true |} ];
     next_tab_id := 1%Z;
     localStorage := empty_storage;
     toastSlot := None;
     trace := [];
     env := quiet_env [builtin_microphone] |}.

Definition settings_write_error (cause : Thrown) : Error :=
  InvokeCommandError "Error setting in local storage for key: whispering-settings"
    (Some cause).

Definition options_page_error : Error :=
  InvokeCommandError "Error opening options page"
    (Some (Rejection "Could not create an options page")).

(** A page whose storage is full, with a document in it. *)
Definition full_storage_world : World :=
  world_in "IDLE"
    {| ls_items := {[ settings_key := JSON_stringify stale_settings ]};
       ls_denied := false; ls_full := true |}
    (quiet_env [builtin_microphone]).

(** The Whispering page open and pinned, a document stored in it. *)
Definition page_open_world (state : string) (s : Settings) (e : Env) : World :=
  {| recorderState := state;
     tabs := [page_tab; pinned_peer];
     next_tab_id := 8%Z;
     localStorage := stored s;
     toastSlot := None;
     trace := [];
     env := e |}.

Definition mic_settings : Settings :=
  with_selectedAudioInputDeviceId "mic-1" stale_settings.

Definition undefined_deviceId : Thrown :=
  TypeError "Cannot read properties of undefined (reading 'deviceId')".

(** The persisted device is among the enumerated ones. *)
Definition present_device_world : World :=
  page_open_world "IDLE" mic_settings (quiet_env [builtin_microphone]).

(** The devices cannot be enumerated. *)
Definition no_enumeration_env : Env :=
  {| tabs_query_rejects := false;
     tabs_create_rejects := false;
     tabs_create_without_id := false;
     tabs_sendMessage_rejects := false;
     runtime_sendMessage_rejects := false;
     runtime_openOptionsPage_rejects := false;
     enumerateRecordingDevices_result := inl (RecorderError "NotFoundError");
     startRecording_error := fun _ => None;
     stopRecording_error := None;
     cancelRecording_error := None;
     recorderState_get_error := None;
     recorderState_set_error := None;
     extensionStorage_set_error := None |}.

(** The switch of [toggleRecording] on the stored state, which follows the
    device fallback. *)
Definition toggle_switch (settings : ToggleSettings) : Eff unit :=
  recorderState <- recorderStateService_get ;;
  if String.eqb recorderState "IDLE" then
    recorderService_startRecording (toggle_selectedAudioInputDeviceId settings) ;;;
    when (toggle_isPlaySoundEnabled settings) (play startSound) ;;;
    Effect_logInfo "Recording started" ;;;
    recorderStateService_set "RECORDING"
  else if String.eqb recorderState "RECORDING" then
    recorderService_stopRecording ;;;
    when (toggle_isPlaySoundEnabled settings) (play stopSound) ;;;
    Effect_logInfo "Recording stopped" ;;;
    recorderStateService_set "IDLE"
  else
    Effect_logError "Invalid recorder state".

Definition recorder_failure : Error := RecorderError "NotAllowedError".
Definition store_failure : Error := ExtensionStorageError "QUOTA_BYTES quota exceeded".

(** The Whispering page open with the right device stored, and a recorder or
    a state store that answers as given. *)
Definition recorder_world (state : string) (start stop cancel setter : option Error) :
    World :=
  page_open_world state mic_settings
    (with_recorder start stop cancel setter (quiet_env [builtin_microphone])).

(** A credential and a present device are stored, the recorder is idle and
    refuses to start. *)
Definition refused_capture_world : World :=
  recorder_world "IDLE" (Some recorder_failure) None None None.

(** A credential and a present device are stored; the stored recorder state
    is neither [IDLE] nor [RECORDING]. *)
Definition configured_loading_world : World :=
  page_open_world "LOADING" mic_settings (quiet_env [builtin_microphone]).

(** The background service worker cannot be reached from the page. *)
Definition unreachable_background_world : World :=
  {| recorderState := "IDLE";
     tabs := [page_tab];
     next_tab_id := 8%Z;
     localStorage := empty_storage;
     toastSlot := None;
     trace := [];
     env :=
       {| tabs_query_rejects := false;
          tabs_create_rejects := false;
          tabs_create_without_id := false;
          tabs_sendMessage_rejects := false;
          runtime_sendMessage_rejects := true;
          runtime_openOptionsPage_rejects := false;
          enumerateRecordingDevices_result := inr [builtin_microphone];
          startRecording_error := fun _ => None;
          stopRecording_error := None;
          cancelRecording_error := None;
          recorderState_get_error := None;
          recorderState_set_error := None;
          extensionStorage_set_error := None |} |}.

(** * Theorems *)

(** ** The JSON codec on settings documents *)

Module JSONFacts.
Import Chars JSON.

Lemma append_String (x : ascii) (a b : string) :
  String x a +:+ b = String x (a +:+ b).
Proof. reflexivity. Qed.

Lemma append_empty (b : string) : EmptyString +:+ b = b.
Proof. reflexivity. Qed.

Lemma append_assoc (a b c : string) : (a +:+ b) +:+ c = a +:+ (b +:+ c).
Proof.
  induction a as [|x a IH]; [reflexivity |].
  rewrite !append_String. now f_equal.
Qed.

Lemma length_append (a b : string) :
  String.length (a +:+ b) = String.length a + String.length b.
Proof.
  induction a as [|x a IH]; [reflexivity |].
  rewrite append_String. cbn [String.length]. now rewrite IH.
Qed.

(** One escaped character is read back as that character. *)
Lemma parse_chars_escape_char (c : ascii) (t : string) :
  parse_chars (escape_char c +:+ t) =
  match parse_chars t with
  | Some (s, out) => Some (String c s, out)
  | None => None
  end.
Proof.
  destruct c as [[] [] [] [] [] [] [] []]; reflexivity.
Qed.

Lemma parse_chars_escape (s rest : string) :
  parse_chars (escape s +:+ String dquote rest) = Some (s, rest).
Proof.
  induction s as [|c s IH]; [reflexivity |].
  cbn [escape]. rewrite append_assoc, parse_chars_escape_char, IH.
  reflexivity.
Qed.

Lemma quote_append (s rest : string) :
  quote s +:+ rest = String dquote (escape s +:+ String dquote rest).
Proof. unfold quote. rewrite append_String, append_assoc. reflexivity. Qed.

Lemma parse_value_flat (fuel : nat) (v : json) (rest : string) :
  flat v ->
  parse_value (S fuel) (stringify v +:+ rest) = Some (v, rest).
Proof.
  destruct v as [| [] | | s | |]; cbn [flat]; try contradiction; intros _.
  - reflexivity.
  - reflexivity.
  - cbn [stringify]. rewrite quote_append.
    change (parse_value (S fuel) (String dquote ?x))
      with (match parse_chars x with
            | Some (t, out) => Some (JString t, out)
            | None => None
            end).
    now rewrite parse_chars_escape.
Qed.

(** One member, followed by a comma or by the closing brace. *)
Lemma parse_members_step (fuel : nat) (k : string) (v : json)
    (sep : ascii) (tail : string) (acc : list (string * json)) :
  flat v -> is_ws sep = false ->
  parse_members (S (S fuel))
    (quote k +:+ ":" +:+ stringify v +:+ String sep tail) acc =
  if Ascii.eqb sep "," then parse_members (S fuel) tail (acc ++ [(k, v)])
  else if Ascii.eqb sep "}" then Some (JObject (acc ++ [(k, v)]), tail)
  else None.
Proof.
  intros Hv Hsep.
  rewrite quote_append.
  change (parse_members (S (S fuel)) (String dquote ?x) acc)
    with (match parse_chars x with
          | Some (k0, s1) =>
              match skip_ws s1 with
              | String ":" s2 =>
                  match parse_value (S fuel) s2 with
                  | Some (v0, s3) =>
                      match skip_ws s3 with
                      | String "," s4 => parse_members (S fuel) s4 (acc ++ [(k0, v0)])
                      | String "}" out => Some (JObject (acc ++ [(k0, v0)]), out)
                      | _ => None
                      end
                  | None => None
                  end
              | _ => None
              end
          | None => None
          end).
  rewrite parse_chars_escape.
  change (skip_ws (":" +:+ ?x)) with (String ":" x).
  cbv iota beta.
  rewrite parse_value_flat by assumption.
  cbn [skip_ws]. rewrite Hsep.
  destruct sep as [[] [] [] [] [] [] [] []]; reflexivity.
Qed.

Lemma parse_members_flat (l : list (string * json)) :
  Forall (fun kv => flat (snd kv)) l -> l <> [] ->
  forall (fuel : nat) (acc : list (string * json)) (rest : string),
    length l < fuel ->
    parse_members fuel (join_members stringify l +:+ String "}" rest) acc
    = Some (JObject (acc ++ l), rest).
Proof.
  induction l as [|[k v] l IH]; intros Hflat Hne fuel acc rest Hfuel;
    [congruence |].
  inversion Hflat as [|? ? Hv Hl]; subst. cbn [snd] in Hv.
  destruct fuel as [|[|fuel]]; cbn [length] in Hfuel; try lia.
  destruct l as [|kv l].
  - cbn [join_members]. rewrite !append_assoc.
    rewrite parse_members_step by (assumption || reflexivity).
    reflexivity.
  - change (join_members stringify ((k, v) :: kv :: l))
      with (quote k +:+ ":" +:+ stringify v +:+ "," +:+ join_members stringify (kv :: l)).
    rewrite !append_assoc. rewrite (append_String "," EmptyString), append_empty.
    rewrite parse_members_step by (assumption || reflexivity).
    cbv iota beta.
    change (Ascii.eqb "," ",") with true. cbv iota.
    rewrite IH; [| assumption | congruence | cbn [length] in *; lia].
    now rewrite <- app_assoc.
Qed.

Lemma parse_value_object (fuel : nat) (t : string) :
  parse_value (S fuel) (String "{" (String dquote t)) =
  parse_members fuel (String dquote t) [].
Proof. reflexivity. Qed.

Lemma parse_stringify_settings (s : Settings) :
  JSON.parse (JSON_stringify s) = Some (Settings_to_json s).
Proof.
  unfold JSON.parse, JSON_stringify, Settings_to_json.
  set (l := [_; _; _; _; _; _; _; _]).
  assert (Hflat : Forall (fun kv => flat (snd kv)) l)
    by (repeat constructor).
  assert (Hne : l <> []) by discriminate.
  pose proof (parse_members_flat l Hflat Hne) as H.
  cbn [stringify].
  rewrite append_String, append_empty.
  set (text := join_members stringify l +:+ "}") in *.
  assert (Hlong : length l < String.length text).
  { assert (E : String.length (quote "isPlaySoundEnabled") = 20) by reflexivity.
    subst text l. cbn [join_members length]. rewrite !length_append, E. lia. }
  assert (Hhead : exists t, text = String dquote t)
    by (eexists; reflexivity).
  destruct Hhead as [t Ht].
  assert (Hparse : forall fuel, length l < fuel ->
            parse_value (S fuel) (String "{" text) = Some (JObject l, EmptyString)).
  { intros fuel Hfuel. rewrite Ht, parse_value_object, <- Ht.
    subst text. now rewrite H. }
  rewrite Hparse; [reflexivity |].
  cbn [String.length]. lia.
Qed.

Lemma settingsSchema_parse_to_json (s : Settings) :
  settingsSchema_parse (Settings_to_json s) = Some s.
Proof. destruct s; reflexivity. Qed.

End JSONFacts.

(** ** Settings storage *)

Section Storage.

Lemma getLocalStorage_total (key : string) (schema : JSON.json -> option Settings)
    (defaultValue : Settings) (w : World) :
  exists s, getLocalStorage key schema defaultValue w = (Success s, w) /\
    (s = defaultValue \/
     exists text v,
       ls_denied (localStorage w) = false /\
       ls_items (localStorage w) !! key = Some text /\
       JSON.parse text = Some v /\ schema v = Some s).
Proof.
  unfold getLocalStorage, catchAll, Effect_try, bind, localStorage_getItem,
    succeed, die.
  destruct (ls_denied (localStorage w)) eqn:Hd; [eauto |].
  destruct (ls_items (localStorage w) !! key) as [text|] eqn:Hk; [| eauto].
  destruct (JSON.parse text) as [v|] eqn:Hp; [| eauto].
  destruct (schema v) as [s|] eqn:Hs; [| eauto].
  exists s. split; [reflexivity |]. right. eauto 6.
Qed.

Lemma getLocalStorage_stored (key : string) (schema : JSON.json -> option Settings)
    (defaultValue s : Settings) (text : string) (v : JSON.json) (w : World) :
  ls_denied (localStorage w) = false ->
  ls_items (localStorage w) !! key = Some text ->
  JSON.parse text = Some v -> schema v = Some s ->
  getLocalStorage key schema defaultValue w = (Success s, w).
Proof.
  intros Hd Hk Hp Hs.
  unfold getLocalStorage, catchAll, Effect_try, bind, localStorage_getItem,
    succeed, die.
  now rewrite Hd, Hk, Hp, Hs.
Qed.

Lemma getLocalStorage_default (key : string) (schema : JSON.json -> option Settings)
    (defaultValue : Settings) (w : World) :
  missing_or_corrupt key schema w ->
  getLocalStorage key schema defaultValue w = (Success defaultValue, w).
Proof.
  unfold getLocalStorage, catchAll, Effect_try, bind, localStorage_getItem,
    succeed, die.
  intros [Hd | [Hk | (text & Hk & [Hp | (v & Hp & Hs)])]].
  - now rewrite Hd.
  - destruct (ls_denied (localStorage w)); [reflexivity | now rewrite Hk].
  - destruct (ls_denied (localStorage w)); [reflexivity | now rewrite Hk, Hp].
  - destruct (ls_denied (localStorage w)); [reflexivity | now rewrite Hk, Hp, Hs].
Qed.

Lemma setLocalStorage_success (key value : string) (w : World) :
  run (setLocalStorage key value) w = Success tt ->
  ls_denied (localStorage w) = false /\
  exec (setLocalStorage key value) w =
    with_localStorage
      {| ls_items := <[key := value]> (ls_items (localStorage w));
         ls_denied := false; ls_full := false |} w.
Proof.
  unfold run, exec, setLocalStorage, Effect_try, localStorage_setItem.
  destruct (ls_denied (localStorage w)) eqn:Hd; cbn; [discriminate |].
  destruct (ls_full (localStorage w)) eqn:Hf; cbn; [discriminate |].
  intros _. split; reflexivity.
Qed.

(** The write fails with a typed error exactly when the storage raises. *)
Lemma setLocalStorage_failure (key value : string) (w : World) :
  run (setLocalStorage key value) w <> Success tt ->
  exists e, setLocalStorage key value w = (Failure e, w).
Proof.
  unfold run, setLocalStorage, Effect_try, localStorage_setItem.
  destruct (ls_denied (localStorage w)); cbn; [eauto |].
  destruct (ls_full (localStorage w)); cbn; [eauto | congruence].
Qed.

(** What the page answers depends on its storage only. *)
Lemma persistedSettings_storage (w1 w2 : World) :
  localStorage w1 = localStorage w2 -> persistedSettings w1 = persistedSettings w2.
Proof.
  intros H.
  unfold persistedSettings, run, getSettings_runInWhisperingContentScript,
    getLocalStorage, catchAll, Effect_try, bind, localStorage_getItem, succeed, die.
  rewrite H.
  destruct (ls_denied (localStorage w2)); [reflexivity |].
  destruct (ls_items (localStorage w2) !! settings_key) as [text|]; [| reflexivity].
  destruct (JSON.parse text) as [v|]; [| reflexivity].
  destruct (settingsSchema_parse v); reflexivity.
Qed.

End Storage.

(** C6: [setSettings(X)] followed by [getSettings()] returns [X] for every
    settings document [X] (whenever the write succeeds), and [getSettings()]
    against missing or corrupt storage returns the fixed default document. *)
Theorem C6_settings_round_trip_and_default :
  (forall (X : Settings) (w : World),
      run (setSettings_runInWhisperingContentScript X) w = Success tt ->
      run getSettings_runInWhisperingContentScript
        (exec (setSettings_runInWhisperingContentScript X) w) = Success X) /\
  (forall w : World,
      missing_or_corrupt settings_key settingsSchema_parse w ->
      run getSettings_runInWhisperingContentScript w = Success defaultSettings).
Proof.
  split.
  - intros X w Hset.
    unfold setSettings_runInWhisperingContentScript in *.
    apply setLocalStorage_success in Hset as [_ ->].
    unfold run, getSettings_runInWhisperingContentScript.
    rewrite (getLocalStorage_stored _ _ _ X (JSON_stringify X) (Settings_to_json X));
      [reflexivity | reflexivity | ..].
    + cbn [localStorage with_localStorage ls_items]. apply lookup_insert_eq.
    + apply JSONFacts.parse_stringify_settings.
    + apply JSONFacts.settingsSchema_parse_to_json.
  - intros w H. unfold run, getSettings_runInWhisperingContentScript.
    now rewrite getLocalStorage_default.
Qed.

(** A document written and read back, and a read from empty storage. *)
Lemma C6_settings_round_trip_and_default_witness :
  run getSettings_runInWhisperingContentScript
    (exec (setSettings_runInWhisperingContentScript stale_settings) idle_world)
  = Success stale_settings /\
  run getSettings_runInWhisperingContentScript idle_world = Success defaultSettings.
Proof.
  split.
  - apply (proj1 C6_settings_round_trip_and_default). reflexivity.
  - apply (proj2 C6_settings_round_trip_and_default). right. left. reflexivity.
Defined.

(** C10: the native [getSettings] handler never fails and never dies: for
    every storage content it succeeds, without touching the world, with the
    stored document that passed the schema or with the default document. *)
Theorem C10_getSettings_total (w : World) :
  exists s : Settings,
    getSettings_runInWhisperingContentScript w = (Success s, w) /\
    (s = defaultSettings \/
     exists text v,
       ls_denied (localStorage w) = false /\
       ls_items (localStorage w) !! settings_key = Some text /\
       JSON.parse text = Some v /\ settingsSchema_parse v = Some s) /\
    (forall e, run getSettings_runInWhisperingContentScript w <> Failure e) /\
    (forall t, run getSettings_runInWhisperingContentScript w <> Die t).
Proof.
  destruct (getLocalStorage_total settings_key settingsSchema_parse defaultSettings w)
    as (s & Heq & Hs).
  exists s. unfold run, getSettings_runInWhisperingContentScript.
  rewrite Heq. cbn. repeat split; [assumption | discriminate | discriminate].
Qed.

(** ** Reasoning about effects *)

Lemma run_exec {A} (m : Eff A) (w : World) : m w = (run m w, exec m w).
Proof. unfold run, exec. now destruct (m w). Qed.

(** A successful sequence is made of successful steps. *)
Lemma bind_success {A B} (m : Eff A) (k : A -> Eff B) (w w2 : World) (b : B) :
  bind m k w = (Success b, w2) ->
  exists a w1, m w = (Success a, w1) /\ k a w1 = (Success b, w2).
Proof.
  unfold bind. destruct (m w) as [[a | e | t] w1]; intros H;
    [eauto | discriminate | discriminate].
Qed.

Lemma bind_step {A B} (m : Eff A) (k : A -> Eff B) (w w1 : World) (a : A) :
  m w = (Success a, w1) -> bind m k w = k a w1.
Proof. unfold bind. now intros ->. Qed.

Lemma bind_failure {A B} (m : Eff A) (k : A -> Eff B) (w w1 : World) (e : Error) :
  m w = (Failure e, w1) -> bind m k w = (Failure e, w1).
Proof. unfold bind. now intros ->. Qed.

Lemma bind_die {A B} (m : Eff A) (k : A -> Eff B) (w w1 : World) (t : Thrown) :
  m w = (Die t, w1) -> bind m k w = (Die t, w1).
Proof. unfold bind. now intros ->. Qed.

(** *** Observations an effect leaves alone *)

Section Stable.
Context {T : Type} (f : World -> T).

Lemma stable_succeed {A} (a : A) : stable f (succeed a).
Proof. intros w. reflexivity. Qed.

Lemma stable_fail {A} (e : Error) : stable f (@fail A e).
Proof. intros w. reflexivity. Qed.

Lemma stable_die {A} (t : Thrown) : stable f (@die A t).
Proof. intros w. reflexivity. Qed.

Lemma stable_gets {A} (g : World -> A) : stable f (gets g).
Proof. intros w. reflexivity. Qed.

Lemma stable_bind {A B} (m : Eff A) (k : A -> Eff B) :
  stable f m -> (forall a, stable f (k a)) -> stable f (bind m k).
Proof.
  intros Hm Hk w. specialize (Hm w). unfold exec, bind in *.
  destruct (m w) as [[a | e | t] w1]; cbn in *; try assumption.
  rewrite <- Hm. apply (Hk a w1).
Qed.

Lemma stable_catchAll {A} (m : Eff A) (h : Error -> Eff A) :
  stable f m -> (forall e, stable f (h e)) -> stable f (catchAll m h).
Proof.
  intros Hm Hh w. specialize (Hm w). unfold exec, catchAll in *.
  destruct (m w) as [[a | e | t] w1]; cbn in *; try assumption.
  rewrite <- Hm. apply (Hh e w1).
Qed.

Lemma stable_mapError {A} (m : Eff A) (g : Error -> Error) :
  stable f m -> stable f (mapError m g).
Proof.
  intros Hm w. specialize (Hm w). unfold exec, mapError in *.
  destruct (m w) as [[a | e | t] w1]; cbn in *; assumption.
Qed.

Lemma stable_Effect_try {A} (m : Eff A) (g : Thrown -> Error) :
  stable f m -> stable f (Effect_try m g).
Proof.
  intros Hm w. specialize (Hm w). unfold exec, Effect_try in *.
  destruct (m w) as [[a | e | t] w1]; cbn in *; assumption.
Qed.

Lemma stable_when (b : bool) (m : Eff unit) : stable f m -> stable f (when b m).
Proof. destruct b; [trivial | intros _ w; reflexivity]. Qed.

Lemma stable_answer (e : option Error) : stable f (answer e).
Proof. destruct e; intros w; reflexivity. Qed.

Lemma stable_modify (g : World -> World) :
  (forall w, f (g w) = f w) -> stable f (modify g).
Proof. intros H w. apply H. Qed.

Lemma stable_emit (e : Event) : ignores_event f e -> stable f (emit e).
Proof. intros H w. apply H. Qed.

(** A message answered by a listener that leaves [f] alone. *)
Lemma stable_tabs_sendMessage {R} (tabId : Z) (name : string) (listener : Eff R) :
  ignores_event f (TabsSendMessage tabId name) ->
  stable f listener -> stable f (chrome_tabs_sendMessage tabId name listener).
Proof.
  intros He Hl. unfold chrome_tabs_sendMessage. apply stable_bind.
  - apply stable_modify, He.
  - intros _ w. unfold exec.
    destruct (_ || _); [reflexivity |].
    specialize (Hl w). unfold exec in Hl.
    destruct (listener w) as [[r | e | t] w1]; assumption.
Qed.

Lemma stable_runtime_sendMessage {R} (name : string) (listener : Eff R) :
  ignores_event f (RuntimeSendMessage name) ->
  stable f listener -> stable f (chrome_runtime_sendMessage name listener).
Proof.
  intros He Hl. unfold chrome_runtime_sendMessage. apply stable_bind.
  - apply stable_modify, He.
  - intros _ w. unfold exec.
    destruct (runtime_sendMessage_rejects _); [reflexivity |].
    specialize (Hl w). unfold exec in Hl.
    destruct (listener w) as [[r | e | t] w1]; assumption.
Qed.

Lemma stable_tabs_query (select : Tab -> bool) : stable f (chrome_tabs_query select).
Proof.
  intros w. unfold exec, chrome_tabs_query.
  destruct (tabs_query_rejects _); reflexivity.
Qed.

Lemma stable_tabs_create (url : string) (active pinned : bool) :
  ignores_event f (TabsCreate url) -> ignores_tabs f ->
  stable f (chrome_tabs_create url active pinned).
Proof.
  intros He Ht. unfold chrome_tabs_create. apply stable_bind.
  - apply stable_modify, He.
  - intros _ w. unfold exec.
    destruct (tabs_create_rejects _); [reflexivity | apply Ht].
Qed.

Lemma stable_getOrCreateWhisperingTabId :
  ignores_event f (TabsCreate whispering_url) -> ignores_tabs f ->
  stable f getOrCreateWhisperingTabId.
Proof.
  intros He Ht. unfold getOrCreateWhisperingTabId, flatMap_fromNullable, Effect_promise.
  apply stable_mapError, stable_bind.
  - apply stable_bind; [apply stable_tabs_query |].
    intros [|first l].
    + apply stable_bind; [now apply stable_tabs_create |].
      intros t. apply stable_succeed.
    + destruct (List.find _ _); apply stable_succeed.
  - intros [i|]; [apply stable_succeed | apply stable_fail].
Qed.

Lemma stable_getLocalStorage (key : string) (schema : JSON.json -> option Settings)
    (d : Settings) :
  stable f (getLocalStorage key schema d).
Proof.
  intros w. unfold exec.
  destruct (getLocalStorage_total key schema d w) as (s & -> & _). reflexivity.
Qed.

Lemma stable_setLocalStorage (key value : string) :
  ignores_storage f -> stable f (setLocalStorage key value).
Proof.
  intros Hs w. unfold exec, setLocalStorage, Effect_try, localStorage_setItem.
  destruct (ls_denied _); [reflexivity |].
  destruct (ls_full _); [reflexivity | apply Hs].
Qed.

Lemma stable_whisperingListener {R} (m : WhisperingMessage R) :
  ignores_storage f -> stable f (whisperingListener m).
Proof.
  intros Hs. destruct m; cbn.
  - apply stable_getLocalStorage.
  - now apply stable_setLocalStorage.
Qed.

Lemma stable_sendMessageToWhisperingContentScript {R} (m : WhisperingMessage R) :
  ignores_event f (TabsCreate whispering_url) ->
  (forall i, ignores_event f (TabsSendMessage i (whispering_commandName m))) ->
  ignores_tabs f -> ignores_storage f ->
  stable f (sendMessageToWhisperingContentScript m).
Proof.
  intros He Hm Ht Hs. unfold sendMessageToWhisperingContentScript, Effect_promise.
  apply stable_bind; [now apply stable_getOrCreateWhisperingTabId |].
  intros i. apply stable_tabs_sendMessage; [apply Hm |].
  now apply stable_whisperingListener.
Qed.

Lemma stable_openOptionsPage_invokeFromGlobalContentScript :
  ignores_event f (RuntimeSendMessage "openOptionsPage") ->
  ignores_event f OpenOptionsPage ->
  stable f openOptionsPage_invokeFromGlobalContentScript.
Proof.
  intros Hm Ho.
  unfold openOptionsPage_invokeFromGlobalContentScript, sendMessageToBackground,
    Effect_promise.
  apply stable_runtime_sendMessage; [exact Hm |]. cbn.
  unfold openOptionsPage_runInBackgroundServiceWorker, Effect_tryPromise.
  apply stable_Effect_try. unfold chrome_runtime_openOptionsPage.
  apply stable_bind; [now apply stable_emit |].
  intros _ w. unfold exec. destruct (runtime_openOptionsPage_rejects _); reflexivity.
Qed.

Lemma stable_enumerateRecordingDevices : stable f enumerateRecordingDevices.
Proof.
  intros w. unfold exec, enumerateRecordingDevices.
  destruct (enumerateRecordingDevices_result _); reflexivity.
Qed.

Lemma stable_checkAndUpdateSelectedAudioInputDevice :
  ignores_event f (TabsCreate whispering_url) ->
  (forall i name, ignores_event f (TabsSendMessage i name)) ->
  ignores_tabs f -> ignores_storage f ->
  stable f checkAndUpdateSelectedAudioInputDevice.
Proof.
  intros He Hm Ht Hs. unfold checkAndUpdateSelectedAudioInputDevice.
  apply stable_catchAll; [| intros; apply stable_succeed].
  apply stable_bind;
    [apply stable_sendMessageToWhisperingContentScript; auto |].
  intros settings. apply stable_bind; [apply stable_enumerateRecordingDevices |].
  intros devices. cbv zeta. destruct (negb _); [| apply stable_succeed].
  destruct devices as [|first l]; [apply stable_die |].
  apply stable_bind;
    [apply stable_sendMessageToWhisperingContentScript; auto |].
  intros old. apply stable_sendMessageToWhisperingContentScript; auto.
Qed.
End Stable.

Lemma tally_with_event (p : Event -> bool) (e : Event) (w : World) :
  tally p (with_event e w) = tally p w + (if p e then 1 else 0).
Proof.
  unfold tally, count. cbn. rewrite List.filter_app, length_app. cbn.
  destruct (p e); reflexivity.
Qed.

Lemma tally_ignores_event (p : Event -> bool) (e : Event) :
  p e = false -> ignores_event (tally p) e.
Proof. intros H w. rewrite tally_with_event, H. lia. Qed.



(** ** The recorder state machine: [toggleRecording] *)

Lemma guard_path_eval (w : World) :
  (alert alert_text ;;; openOptionsPage_invokeFromGlobalContentScript ;;; succeed tt) w =
  if runtime_sendMessage_rejects (env w)
  then (Die (Rejection "Could not establish connection"), after_guard w)
  else if runtime_openOptionsPage_rejects (env w)
  then (Die (Rejection "The message port closed before a response was received"),
        with_event OpenOptionsPage (after_guard w))
  else (Success tt, with_event OpenOptionsPage (after_guard w)).
Proof.
  unfold bind, alert, emit, modify, openOptionsPage_invokeFromGlobalContentScript,
    sendMessageToBackground, Effect_promise, chrome_runtime_sendMessage, bind, emit,
    modify, backgroundListener, openOptionsPage_runInBackgroundServiceWorker,
    Effect_tryPromise, Effect_try, chrome_runtime_openOptionsPage, bind, emit, modify,
    succeed, after_guard.
  cbn.
  destruct (runtime_sendMessage_rejects (env w)); [reflexivity |].
  destruct (runtime_openOptionsPage_rejects (env w)); reflexivity.
Qed.

Lemma toggleRecording_from_no_credential (settings : ToggleSettings) :
  toggle_apiKey settings = EmptyString ->
  toggleRecording_from settings =
  (alert alert_text ;;; openOptionsPage_invokeFromGlobalContentScript ;;; succeed tt).
Proof. unfold toggleRecording_from. now intros ->. Qed.

Lemma guard_path_opens_configuration_only (m : Eff unit) (w : World) :
  m w = (alert alert_text ;;; openOptionsPage_invokeFromGlobalContentScript ;;; succeed tt) w ->
  opens_configuration_only m w.
Proof.
  intros Hm. unfold opens_configuration_only, run, exec. rewrite Hm, guard_path_eval.
  fold (tally is_open_configuration w) (tally is_capture w) (tally is_cue w)
    (tally is_invalid_state_log w) (tally is_configuration_alert w).
  destruct (runtime_sendMessage_rejects (env w)) eqn:Hs;
    [| destruct (runtime_openOptionsPage_rejects (env w)) eqn:Ho];
    cbn [fst snd]; unfold after_guard;
    (split;
     [ cbn [trace with_event]; rewrite <- ?app_assoc; cbn [app];
       eexists; split; [reflexivity | (now left) || (now right)]
     | repeat match goal with
         | |- context [count ?p (trace ?x)] => change (count p (trace x)) with (tally p x)
         end;
       rewrite ?tally_with_event; cbn;
       repeat split; try lia; try discriminate; try reflexivity ]).
Qed.

(** Every invocation of the handler takes the no-credential path: the
    recorder state it leaves is the one it found. *)
Lemma toggleRecording_keeps_recorderState (w : World) :
  recorderState (exec toggleRecording_runInGlobalContentScript w) = recorderState w.
Proof.
  apply (guard_path_opens_configuration_only toggleRecording_runInGlobalContentScript w).
  unfold toggleRecording_runInGlobalContentScript.
  now rewrite toggleRecording_from_no_credential.
Qed.

Lemma toggleRecording_keeps_localStorage (w : World) :
  localStorage (exec toggleRecording_runInGlobalContentScript w) = localStorage w.
Proof.
  apply (guard_path_opens_configuration_only toggleRecording_runInGlobalContentScript w).
  unfold toggleRecording_runInGlobalContentScript.
  now rewrite toggleRecording_from_no_credential.
Qed.

(** C1 (the code at the failing input): a credential is stored in the
    settings and the stored recorder state is IDLE; an invocation of
    [toggleRecording] succeeds and ends with stored state IDLE, not
    RECORDING, and a second invocation finds and leaves IDLE again.  No
    capture is started: the handler alerts and asks for the configuration
    page. *)
Theorem C1_toggle_from_IDLE_stays_IDLE :
  persistedSettings present_device_world = Success mic_settings /\
  apiKey mic_settings = "sk-test" /\
  recorderState present_device_world = "IDLE" /\
  run toggleRecording_runInGlobalContentScript present_device_world = Success tt /\
  recorderState (exec toggleRecording_runInGlobalContentScript present_device_world)
  = "IDLE" /\
  recorderState
    (exec toggleRecording_runInGlobalContentScript
       (exec toggleRecording_runInGlobalContentScript present_device_world)) = "IDLE" /\
  tally is_capture (exec toggleRecording_runInGlobalContentScript present_device_world)
  = 0 /\
  trace (exec toggleRecording_runInGlobalContentScript present_device_world) =
    [Alert alert_text; RuntimeSendMessage "openOptionsPage"; OpenOptionsPage].
Proof.
  split; [vm_compute; reflexivity |].
  repeat split; reflexivity.
Qed.

(** The body of the handler, given the three fields of the stored document
    instead of the literal, starts capture on that world and commits
    RECORDING; a second run stops it and commits IDLE. *)
Lemma stored_binding_toggles :
  configured_settings =
    {| toggle_apiKey := apiKey mic_settings;
       toggle_selectedAudioInputDeviceId := selectedAudioInputDeviceId mic_settings;
       toggle_isPlaySoundEnabled := isPlaySoundEnabled mic_settings |} /\
  run (toggleRecording_from configured_settings) present_device_world = Success tt /\
  recorderState (exec (toggleRecording_from configured_settings) present_device_world)
  = "RECORDING" /\
  recorderState
    (exec (toggleRecording_from configured_settings)
       (exec (toggleRecording_from configured_settings) present_device_world))
  = "IDLE".
Proof. repeat split; vm_compute; reflexivity. Qed.

(** C2 (as the code has it): with no credential configured, an invocation of
    [toggleRecording] shows the configuration alert once, then asks the
    background exactly once to open the configuration, and does nothing
    else: it starts or stops no capture, plays no cue and mutates neither the
    recorder state nor the stored settings; it never ends in a typed failure,
    and it succeeds when the request is answered.
    The first part is for any binding of [settings] without a credential, the
    second for the handler as written, whose binding never has one. *)
Theorem C2_no_credential_opens_configuration :
  (forall (settings : ToggleSettings) (w : World),
      toggle_apiKey settings = EmptyString ->
      opens_configuration_only (toggleRecording_from settings) w) /\
  (forall w : World,
      opens_configuration_only toggleRecording_runInGlobalContentScript w).
Proof.
  split.
  - intros settings w H. apply guard_path_opens_configuration_only.
    now rewrite toggleRecording_from_no_credential.
  - intros w. apply guard_path_opens_configuration_only.
    unfold toggleRecording_runInGlobalContentScript.
    now rewrite toggleRecording_from_no_credential.
Qed.

(** The handler's own binding, on an idle world. *)
Lemma C2_no_credential_opens_configuration_witness :
  toggle_apiKey toggleRecording_settings = EmptyString /\
  opens_configuration_only (toggleRecording_from toggleRecording_settings) idle_world.
Proof.
  split; [reflexivity |].
  apply (proj1 C2_no_credential_opens_configuration); reflexivity.
Defined.

(** C2 (counterexample): no credential is configured, neither in the stored
    settings nor in the handler's binding, and the invocation ends in success,
    not in a typed error. *)
Lemma C2_counterexample :
  (exists s, persistedSettings idle_world = Success s /\ apiKey s = EmptyString) /\
  toggle_apiKey toggleRecording_settings = EmptyString /\
  run toggleRecording_runInGlobalContentScript idle_world = Success tt /\
  is_failure (run toggleRecording_runInGlobalContentScript idle_world) = false.
Proof.
  split; [exists defaultSettings; split; reflexivity |].
  repeat split; reflexivity.
Qed.

(** *** The recorder services, step by step *)

Lemma recorderStateService_get_eval (w : World) :
  recorderStateService_get w =
  match recorderState_get_error (env w) with
  | Some e => (Failure e, w)
  | None => (Success (recorderState w), w)
  end.
Proof.
  unfold recorderStateService_get, bind, gets, answer.
  destruct (recorderState_get_error (env w)); reflexivity.
Qed.

Lemma recorderStateService_set_eval (v : string) (w : World) :
  recorderStateService_set v w =
  match recorderState_set_error (env w) with
  | Some e => (Failure e, w)
  | None => (Success tt, with_recorderState v w)
  end.
Proof.
  unfold recorderStateService_set, bind, gets, answer.
  destruct (recorderState_set_error (env w)); reflexivity.
Qed.

Lemma recorderService_startRecording_eval (device : string) (w : World) :
  recorderService_startRecording device w =
  (match startRecording_error (env w) device with
   | Some e => Failure e
   | None => Success tt
   end, with_event (StartRecording device) w).
Proof.
  unfold recorderService_startRecording, bind, emit, modify, gets, answer. cbn.
  destruct (startRecording_error (env w) device); reflexivity.
Qed.

Lemma recorderService_stopRecording_eval (w : World) :
  recorderService_stopRecording w =
  (match stopRecording_error (env w) with
   | Some e => Failure e
   | None => Success tt
   end, with_event StopRecording w).
Proof.
  unfold recorderService_stopRecording, bind, emit, modify, gets, answer. cbn.
  destruct (stopRecording_error (env w)); reflexivity.
Qed.

Lemma recorderService_cancelRecording_eval (w : World) :
  recorderService_cancelRecording w =
  (match cancelRecording_error (env w) with
   | Some e => Failure e
   | None => Success tt
   end, with_event CancelRecording w).
Proof.
  unfold recorderService_cancelRecording, bind, emit, modify, gets, answer. cbn.
  destruct (cancelRecording_error (env w)); reflexivity.
Qed.

Lemma when_play_eval (enabled : bool) (cue : Cue) (w : World) :
  when enabled (play cue) w = (Success tt, cued enabled cue w).
Proof. destruct enabled; reflexivity. Qed.

Lemma tally_cued (p : Event -> bool) (enabled : bool) (cue : Cue) (w : World) :
  tally p (cued enabled cue w) =
  tally p w + (if enabled && p (Play cue) then 1 else 0).
Proof.
  destruct enabled; cbn [cued andb]; [apply tally_with_event | lia].
Qed.

Lemma tally_with_recorderState (p : Event -> bool) (v : string) (w : World) :
  tally p (with_recorderState v w) = tally p w.
Proof. reflexivity. Qed.

(** *** The switch behind the guard

    With a binding of [settings] that carries a credential the handler goes on
    to the device fallback and the switch on the stored state.  The handler
    as written never gets there; these lemmas state what the rest of its body
    does for such a binding. *)

Section Switch.
Variable settings : ToggleSettings.
Hypothesis credential : toggle_apiKey settings <> EmptyString.

Variables w w1 : World.
Hypothesis fallback : checkAndUpdateSelectedAudioInputDevice w = (Success tt, w1).

Lemma fallback_recorderState : recorderState w1 = recorderState w.
Proof using fallback.
  pose proof (stable_checkAndUpdateSelectedAudioInputDevice recorderState) as H.
  specialize (H ltac:(intros ?; reflexivity) ltac:(intros ? ? ?; reflexivity)
                ltac:(intros ? ? ?; reflexivity) ltac:(intros ? ?; reflexivity) w).
  unfold exec in H. now rewrite fallback in H.
Qed.

Lemma fallback_env : env w1 = env w.
Proof using fallback.
  pose proof (stable_checkAndUpdateSelectedAudioInputDevice env) as H.
  specialize (H ltac:(intros ?; reflexivity) ltac:(intros ? ? ?; reflexivity)
                ltac:(intros ? ? ?; reflexivity) ltac:(intros ? ?; reflexivity) w).
  unfold exec in H. now rewrite fallback in H.
Qed.

Lemma fallback_tally (p : Event -> bool) :
  (forall url, p (TabsCreate url) = false) ->
  (forall i name, p (TabsSendMessage i name) = false) ->
  tally p w1 = tally p w.
Proof using fallback.
  intros Hc Hm.
  pose proof (stable_checkAndUpdateSelectedAudioInputDevice (tally p)) as H.
  specialize (H (tally_ignores_event _ _ (Hc _))
                (fun i name => tally_ignores_event _ _ (Hm i name))
                ltac:(intros ? ? ?; reflexivity) ltac:(intros ? ?; reflexivity) w).
  unfold exec in H. now rewrite fallback in H.
Qed.

Lemma toggleRecording_from_credential :
  toggleRecording_from settings w =
  (recorderState <- recorderStateService_get ;;
   if String.eqb recorderState "IDLE" then
     recorderService_startRecording (toggle_selectedAudioInputDeviceId settings) ;;;
     when (toggle_isPlaySoundEnabled settings) (play startSound) ;;;
     Effect_logInfo "Recording started" ;;;
     recorderStateService_set "RECORDING"
   else if String.eqb recorderState "RECORDING" then
     recorderService_stopRecording ;;;
     when (toggle_isPlaySoundEnabled settings) (play stopSound) ;;;
     Effect_logInfo "Recording stopped" ;;;
     recorderStateService_set "IDLE"
   else
     Effect_logError "Invalid recorder state") w1.
Proof using credential fallback.
  unfold toggleRecording_from.
  destruct (toggle_apiKey settings); [congruence |]. cbn [is_empty].
  now rewrite (bind_step _ _ _ _ _ fallback).
Qed.

(** IDLE to RECORDING: capture starts on the configured device, the start
    cue plays if enabled, the state is committed last. *)
Lemma switch_IDLE_to_RECORDING :
  recorderState w = "IDLE" ->
  recorderState_get_error (env w) = None ->
  startRecording_error (env w) (toggle_selectedAudioInputDeviceId settings) = None ->
  recorderState_set_error (env w) = None ->
  toggleRecording_from settings w =
  (Success tt,
   with_recorderState "RECORDING"
     (with_event (LogInfo "Recording started")
        (cued (toggle_isPlaySoundEnabled settings) startSound
           (with_event (StartRecording (toggle_selectedAudioInputDeviceId settings))
              w1)))).
Proof using credential fallback.
  intros Hst Hget Hstart Hset.
  assert (Hset' : forall w', env w' = env w1 ->
            recorderState_set_error (env w') = None)
    by (intros w' ->; now rewrite fallback_env).
  rewrite toggleRecording_from_credential.
  erewrite bind_step
    by (rewrite recorderStateService_get_eval, fallback_env, Hget,
          fallback_recorderState, Hst; reflexivity).
  cbn [String.eqb Ascii.eqb Bool.eqb].
  erewrite bind_step
    by (rewrite recorderService_startRecording_eval, fallback_env, Hstart;
        reflexivity).
  erewrite bind_step by apply when_play_eval.
  erewrite bind_step by reflexivity.
  rewrite recorderStateService_set_eval, Hset'; [reflexivity |].
  now destruct (toggle_isPlaySoundEnabled settings).
Qed.

(** RECORDING to IDLE: capture stops, the stop cue plays if enabled. *)
Lemma switch_RECORDING_to_IDLE :
  recorderState w = "RECORDING" ->
  recorderState_get_error (env w) = None ->
  stopRecording_error (env w) = None ->
  recorderState_set_error (env w) = None ->
  toggleRecording_from settings w =
  (Success tt,
   with_recorderState "IDLE"
     (with_event (LogInfo "Recording stopped")
        (cued (toggle_isPlaySoundEnabled settings) stopSound
           (with_event StopRecording w1)))).
Proof using credential fallback.
  intros Hst Hget Hstop Hset.
  assert (Hset' : forall w', env w' = env w1 ->
            recorderState_set_error (env w') = None)
    by (intros w' ->; now rewrite fallback_env).
  rewrite toggleRecording_from_credential.
  erewrite bind_step
    by (rewrite recorderStateService_get_eval, fallback_env, Hget,
          fallback_recorderState, Hst; reflexivity).
  cbn [String.eqb Ascii.eqb Bool.eqb].
  erewrite bind_step
    by (rewrite recorderService_stopRecording_eval, fallback_env, Hstop;
        reflexivity).
  erewrite bind_step by apply when_play_eval.
  erewrite bind_step by reflexivity.
  rewrite recorderStateService_set_eval, Hset'; [reflexivity |].
  now destruct (toggle_isPlaySoundEnabled settings).
Qed.

(** A capture that fails to start: the error reaches the caller, the state
    stays IDLE and no cue is played. *)
Lemma switch_start_failure (e : Error) :
  recorderState w = "IDLE" ->
  recorderState_get_error (env w) = None ->
  startRecording_error (env w) (toggle_selectedAudioInputDeviceId settings) = Some e ->
  toggleRecording_from settings w =
  (Failure e,
   with_event (StartRecording (toggle_selectedAudioInputDeviceId settings)) w1).
Proof using credential fallback.
  intros Hst Hget Hstart.
  rewrite toggleRecording_from_credential.
  erewrite bind_step
    by (rewrite recorderStateService_get_eval, fallback_env, Hget,
          fallback_recorderState, Hst; reflexivity).
  cbn [String.eqb Ascii.eqb Bool.eqb].
  erewrite bind_failure
    by (rewrite recorderService_startRecording_eval, fallback_env, Hstart;
        reflexivity).
  reflexivity.
Qed.

Corollary switch_start_failure_observed (e : Error) :
  recorderState w = "IDLE" ->
  recorderState_get_error (env w) = None ->
  startRecording_error (env w) (toggle_selectedAudioInputDeviceId settings) = Some e ->
  run (toggleRecording_from settings) w = Failure e /\
  recorderState (exec (toggleRecording_from settings) w) = "IDLE" /\
  tally is_cue (exec (toggleRecording_from settings) w) = tally is_cue w.
Proof using credential fallback.
  intros Hst Hget Hstart. unfold run, exec.
  rewrite (switch_start_failure e Hst Hget Hstart). cbn [fst snd].
  rewrite tally_with_event, (fallback_tally is_cue) by reflexivity.
  cbn. rewrite fallback_recorderState. repeat split; [assumption | lia].
Qed.

(** Any other stored value: logged, nothing else. *)
Lemma switch_invalid_state :
  recorderState w <> "IDLE" -> recorderState w <> "RECORDING" ->
  recorderState_get_error (env w) = None ->
  toggleRecording_from settings w =
  (Success tt, with_event (LogError "Invalid recorder state") w1).
Proof using credential fallback.
  intros Hidle Hrec Hget.
  rewrite toggleRecording_from_credential.
  erewrite bind_step
    by (rewrite recorderStateService_get_eval, fallback_env, Hget; reflexivity).
  rewrite fallback_recorderState.
  apply String.eqb_neq in Hidle, Hrec. rewrite Hidle, Hrec. reflexivity.
Qed.
End Switch.

(** *** The handler as written, on concrete worlds *)

(** C5 (the code at the failing input): a credential is stored, the stored
    state is IDLE and capture cannot start.  [toggleRecording] ends in
    success: no error reaches the caller, because capture start is never
    attempted.  The state stays IDLE and no cue is played. *)
Theorem C5_capture_failure_not_reported :
  persistedSettings refused_capture_world = Success mic_settings /\
  apiKey mic_settings = "sk-test" /\
  recorderState refused_capture_world = "IDLE" /\
  (forall device,
      startRecording_error (env refused_capture_world) device = Some recorder_failure) /\
  run toggleRecording_runInGlobalContentScript refused_capture_world = Success tt /\
  is_failure (run toggleRecording_runInGlobalContentScript refused_capture_world)
  = false /\
  recorderState (exec toggleRecording_runInGlobalContentScript refused_capture_world)
  = "IDLE" /\
  tally is_capture (exec toggleRecording_runInGlobalContentScript refused_capture_world)
  = 0 /\
  tally is_cue (exec toggleRecording_runInGlobalContentScript refused_capture_world)
  = 0.
Proof.
  split; [vm_compute; reflexivity |].
  repeat split; reflexivity.
Qed.

(** The body of the handler, given the fields of the stored document instead
    of the literal, asks the recorder to start on that world and fails with
    the recorder's error; the state stays IDLE and no cue is played. *)
Lemma stored_binding_reports_capture_failure :
  run (toggleRecording_from configured_settings) refused_capture_world
  = Failure recorder_failure /\
  recorderState (exec (toggleRecording_from configured_settings) refused_capture_world)
  = "IDLE" /\
  tally is_cue (exec (toggleRecording_from configured_settings) refused_capture_world)
  = 0 /\
  tally is_capture (exec (toggleRecording_from configured_settings) refused_capture_world)
  = 1.
Proof. repeat split; vm_compute; reflexivity. Qed.

(** C9 (the code at the failing input): a credential is stored and the
    stored state is LOADING.  [toggleRecording] leaves the state alone,
    starts and stops nothing and succeeds, but it does not log the invalid
    state: it alerts and asks for the configuration page. *)
Theorem C9_invalid_state_not_logged :
  persistedSettings configured_loading_world = Success mic_settings /\
  apiKey mic_settings = "sk-test" /\
  recorderState configured_loading_world = "LOADING" /\
  run toggleRecording_runInGlobalContentScript configured_loading_world = Success tt /\
  recorderState (exec toggleRecording_runInGlobalContentScript configured_loading_world)
  = "LOADING" /\
  tally is_capture (exec toggleRecording_runInGlobalContentScript configured_loading_world)
  = 0 /\
  tally is_invalid_state_log
    (exec toggleRecording_runInGlobalContentScript configured_loading_world) = 0 /\
  trace (exec toggleRecording_runInGlobalContentScript configured_loading_world) =
    [Alert alert_text; RuntimeSendMessage "openOptionsPage"; OpenOptionsPage].
Proof.
  split; [vm_compute; reflexivity |].
  repeat split; reflexivity.
Qed.

(** The body of the handler, given the fields of the stored document instead
    of the literal, logs the invalid state once on that world, asks nothing
    of the recorder and succeeds. *)
Lemma stored_binding_logs_invalid_state :
  run (toggleRecording_from configured_settings) configured_loading_world = Success tt /\
  recorderState (exec (toggleRecording_from configured_settings) configured_loading_world)
  = "LOADING" /\
  tally is_invalid_state_log
    (exec (toggleRecording_from configured_settings) configured_loading_world) = 1 /\
  tally is_capture
    (exec (toggleRecording_from configured_settings) configured_loading_world) = 0.
Proof. repeat split; vm_compute; reflexivity. Qed.

(** C4 (the code at the failing input): the persisted device id is not
    among the enumerated devices, and after one toggle attempt it is still
    the persisted id: the fallback is not reached. *)
Theorem C4_fallback_not_reached :
  persistedSettings stale_device_world = Success stale_settings /\
  enumerateRecordingDevices_result (env stale_device_world) = inr [builtin_microphone] /\
  existsb (fun d => String.eqb (deviceId d) (selectedAudioInputDeviceId stale_settings))
    [builtin_microphone] = false /\
  persistedSettings (exec toggleRecording_runInGlobalContentScript stale_device_world)
  = Success stale_settings /\
  selectedAudioInputDeviceId stale_settings <> deviceId builtin_microphone.
Proof.
  assert (H : persistedSettings stale_device_world = Success stale_settings)
    by (vm_compute; reflexivity).
  split; [exact H |]. split; [reflexivity |]. split; [reflexivity |].
  split; [| discriminate].
  rewrite <- H. apply persistedSettings_storage, toggleRecording_keeps_localStorage.
Qed.

(** The fallback itself, run on that world, persists the first device. *)
Lemma fallback_substitutes_first_device :
  run checkAndUpdateSelectedAudioInputDevice stale_device_world = Success tt /\
  persistedSettings (exec checkAndUpdateSelectedAudioInputDevice stale_device_world)
  = Success (with_selectedAudioInputDeviceId "mic-1" stale_settings).
Proof. split; vm_compute; reflexivity. Qed.

(** With no input device the fallback throws inside its generator; that is a
    defect, which [catchAll] does not catch. *)
Lemma fallback_defect_escapes :
  run checkAndUpdateSelectedAudioInputDevice no_device_world =
  Die (TypeError "Cannot read properties of undefined (reading 'deviceId')").
Proof. vm_compute. reflexivity. Qed.

(** A typed failure inside the fallback is discarded. *)
Lemma fallback_discards_failures (w : World) (e : Error) :
  enumerateRecordingDevices_result (env w) = inl e ->
  forall e', run checkAndUpdateSelectedAudioInputDevice w <> Failure e'.
Proof.
  intros _ e'. unfold run, checkAndUpdateSelectedAudioInputDevice, catchAll.
  destruct (bind _ _ w) as [[[] | ? | ?] w1]; cbn; discriminate.
Qed.

(** ** Peer locator *)

Lemma find_filter {A} (p : A -> bool) (l : list A) :
  List.find p l = List.head (List.filter p l).
Proof.
  induction l as [|x l IH]; [reflexivity |]. cbn.
  destruct (p x); [reflexivity | exact IH].
Qed.

(** The locator, case by case. *)
Lemma getOrCreateWhisperingTabId_eval (w : World) :
  getOrCreateWhisperingTabId w =
  if tabs_query_rejects (env w) then (Die (Rejection "tabs.query"), w)
  else
    match whisperingTabs w with
    | first :: l => (locator_exit (tab_id (chosen_tab first l)), w)
    | [] =>
        if tabs_create_rejects (env w)
        then (Die (Rejection "tabs.create"), with_event (TabsCreate whispering_url) w)
        else
          (locator_exit (tab_id (created_tab w)),
           with_tabs (tabs w ++ [created_tab w]) (next_tab_id w + 1)
             (with_event (TabsCreate whispering_url) w))
    end.
Proof.
  unfold getOrCreateWhisperingTabId, mapError, flatMap_fromNullable, bind,
    Effect_promise, chrome_tabs_query, whisperingTabs.
  destruct (tabs_query_rejects (env w)); [reflexivity |].
  destruct (List.filter is_whispering (tabs w)) as [|first l].
  - unfold chrome_tabs_create, bind, emit, modify, succeed, fail, created_tab. cbn.
    destruct (tabs_create_rejects (env w)); [reflexivity |].
    destruct (tabs_create_without_id (env w)); reflexivity.
  - unfold chosen_tab.
    destruct (List.find tab_pinned (first :: l)) as [tab|];
      [destruct (tab_id tab) | destruct (tab_id first)]; reflexivity.
Qed.

Lemma created_tab_is_whispering (w : World) : is_whispering (created_tab w) = true.
Proof. reflexivity. Qed.

(** Once the locator has resolved an identifier, it resolves the same one
    again and changes nothing. *)
Lemma getOrCreateWhisperingTabId_converges (w : World) (i : Z) :
  run getOrCreateWhisperingTabId w = Success i ->
  getOrCreateWhisperingTabId (exec getOrCreateWhisperingTabId w) =
  (Success i, exec getOrCreateWhisperingTabId w).
Proof.
  unfold run, exec. rewrite (getOrCreateWhisperingTabId_eval w).
  destruct (tabs_query_rejects (env w)) eqn:Hq; [discriminate |].
  destruct (whisperingTabs w) as [|first l] eqn:Hw.
  - destruct (tabs_create_rejects (env w)) eqn:Hc; [discriminate |].
    cbn [fst snd]. intros Hi.
    rewrite getOrCreateWhisperingTabId_eval. cbn [env with_tabs with_event].
    rewrite Hq. unfold whisperingTabs in *. cbn [tabs with_tabs].
    rewrite List.filter_app, Hw. cbn [List.filter app].
    rewrite created_tab_is_whispering.
    unfold chosen_tab. cbn [List.find created_tab tab_pinned].
    now rewrite <- Hi.
  - cbn [fst snd]. intros Hi.
    rewrite getOrCreateWhisperingTabId_eval, Hq, Hw. now rewrite Hi.
Qed.

(** C7: with at least one Whispering page open and exactly one of them
    pinned, the locator returns the pinned page's identifier and changes
    nothing; with pages open and none pinned, it returns the first one's;
    with none open, one call creates exactly one page, pinned and not
    focused, and a subsequent call returns that page's identifier without
    creating another; and in every world a call that resolved an identifier
    is followed by calls that resolve the same one. *)
Theorem C7_peer_locator :
  (forall (w : World) (t : Tab) (i : Z),
      tabs_query_rejects (env w) = false ->
      List.filter tab_pinned (whisperingTabs w) = [t] ->
      tab_id t = Some i ->
      getOrCreateWhisperingTabId w = (Success i, w)) /\
  (forall (w : World) (first : Tab) (rest : list Tab) (i : Z),
      tabs_query_rejects (env w) = false ->
      whisperingTabs w = first :: rest ->
      List.filter tab_pinned (whisperingTabs w) = [] ->
      tab_id first = Some i ->
      getOrCreateWhisperingTabId w = (Success i, w)) /\
  (forall w : World,
      tabs_query_rejects (env w) = false ->
      tabs_create_rejects (env w) = false ->
      tabs_create_without_id (env w) = false ->
      whisperingTabs w = [] ->
      let w' := exec getOrCreateWhisperingTabId w in
      run getOrCreateWhisperingTabId w = Success (next_tab_id w) /\
      tabs w' = tabs w ++ [created_tab w] /\
      whisperingTabs w' = [created_tab w] /\
      tab_id (created_tab w) = Some (next_tab_id w) /\
      tab_pinned (created_tab w) = true /\
      tab_active (created_tab w) = false /\
      tally is_tab_creation w' = S (tally is_tab_creation w) /\
      getOrCreateWhisperingTabId w' = (Success (next_tab_id w), w')) /\
  (forall (w : World) (i : Z),
      run getOrCreateWhisperingTabId w = Success i ->
      getOrCreateWhisperingTabId (exec getOrCreateWhisperingTabId w) =
      (Success i, exec getOrCreateWhisperingTabId w)).
Proof.
  split; [| split; [| split]].
  - intros w t i Hq Hp Hi.
    rewrite getOrCreateWhisperingTabId_eval, Hq.
    destruct (whisperingTabs w) as [|first l] eqn:Hw; [discriminate |].
    unfold chosen_tab. rewrite find_filter, Hp. cbn. now rewrite Hi.
  - intros w first rest i Hq Hw Hp Hi.
    rewrite getOrCreateWhisperingTabId_eval, Hq, Hw.
    unfold chosen_tab. rewrite find_filter, <- Hw, Hp. cbn. now rewrite Hi.
  - intros w Hq Hc Hid Hw w'.
    assert (Hrun : run getOrCreateWhisperingTabId w = Success (next_tab_id w)).
    { unfold run. rewrite getOrCreateWhisperingTabId_eval, Hq, Hw, Hc.
      unfold created_tab. rewrite Hid. reflexivity. }
    assert (Hexec : w' = with_tabs (tabs w ++ [created_tab w]) (next_tab_id w + 1)
                           (with_event (TabsCreate whispering_url) w)).
    { unfold w', exec. now rewrite getOrCreateWhisperingTabId_eval, Hq, Hw, Hc. }
    split; [exact Hrun |].
    split; [now rewrite Hexec |].
    split.
    { rewrite Hexec. unfold whisperingTabs in *. cbn [tabs with_tabs].
      rewrite List.filter_app, Hw. reflexivity. }
    split; [unfold created_tab; now rewrite Hid |].
    split; [reflexivity |]. split; [reflexivity |].
    split.
    { rewrite Hexec.
      change (tally is_tab_creation (with_event (TabsCreate whispering_url) w)
              = S (tally is_tab_creation w)).
      rewrite tally_with_event. cbn. lia. }
    now apply getOrCreateWhisperingTabId_converges.
  - exact getOrCreateWhisperingTabId_converges.
Qed.

(** The locator on a world with a pinned and an unpinned page, and on a world
    without any. *)
Lemma C7_peer_locator_witness :
  getOrCreateWhisperingTabId two_peers_world = (Success 5%Z, two_peers_world) /\
  run getOrCreateWhisperingTabId idle_world = Success 8%Z /\
  getOrCreateWhisperingTabId (exec getOrCreateWhisperingTabId idle_world) =
  (Success 8%Z, exec getOrCreateWhisperingTabId idle_world).
Proof.
  split; [| split].
  - apply (proj1 C7_peer_locator two_peers_world pinned_peer); reflexivity.
  - apply (proj1 (proj2 (proj2 C7_peer_locator)) idle_world); reflexivity.
  - apply (proj2 (proj2 (proj2 C7_peer_locator)) idle_world). reflexivity.
Defined.

(** ** [cancelRecording] *)

(** The settings shim answers with the document the page holds and touches
    neither the recorder state nor the collaborators. *)
Lemma getSettings_invokeFromGlobalContentScript_success
    (w w1 : World) (s : Settings) :
  getSettings_invokeFromGlobalContentScript w = (Success s, w1) ->
  persistedSettings w = Success s /\
  recorderState w1 = recorderState w /\
  env w1 = env w /\
  forall p : Event -> bool,
    (forall url, p (TabsCreate url) = false) ->
    (forall i name, p (TabsSendMessage i name) = false) ->
    tally p w1 = tally p w.
Proof.
  intros H.
  assert (Hstable : forall {T} (f : World -> T),
            ignores_event f (TabsCreate whispering_url) ->
            (forall i, ignores_event f (TabsSendMessage i "getSettings")) ->
            ignores_tabs f -> ignores_storage f -> f w1 = f w).
  { intros T f He Hm Ht Hs.
    pose proof (stable_sendMessageToWhisperingContentScript f Msg_getSettings
                  He Hm Ht Hs w) as Hf.
    unfold exec in Hf.
    unfold getSettings_invokeFromGlobalContentScript in H. now rewrite H in Hf. }
  split; [| split; [| split]].
  - unfold getSettings_invokeFromGlobalContentScript,
      sendMessageToWhisperingContentScript in H.
    apply bind_success in H as (i & wa & Hloc & Hsend).
    unfold Effect_promise, chrome_tabs_sendMessage in Hsend.
    apply bind_success in Hsend as ([] & wb & Hemit & Hrest).
    unfold emit, modify in Hemit. injection Hemit as Hwb.
    destruct (_ || _) in Hrest; [discriminate |].
    cbn [whisperingListener] in Hrest.
    assert (Hr : persistedSettings wb = Success s).
    { unfold persistedSettings, run, getSettings_runInWhisperingContentScript in *.
      destruct (getLocalStorage_total settings_key settingsSchema_parse
                  defaultSettings wb) as (s' & Heq & _).
      rewrite Heq in *. cbn. now injection Hrest as -> _. }
    rewrite <- Hr. apply persistedSettings_storage.
    rewrite <- Hwb. cbn [localStorage with_event].
    pose proof (stable_getOrCreateWhisperingTabId localStorage
                  ltac:(intros ?; reflexivity) ltac:(intros ? ? ?; reflexivity) w) as Hl.
    unfold exec in Hl. rewrite Hloc in Hl. now symmetry.
  - apply (Hstable _ recorderState); intros; intro; intros; reflexivity.
  - apply (Hstable _ env); intros; intro; intros; reflexivity.
  - intros p Hc Hm. apply (Hstable _ (tally p)).
    + now apply tally_ignores_event.
    + intros i. now apply tally_ignores_event.
    + intros l n w0. reflexivity.
    + intros ls w0. reflexivity.
Qed.

(** C8: a successful [cancelRecording] ends with stored state IDLE whatever
    the state was before, also when it was IDLE already; the cancel cue is
    played once if the state was RECORDING and the stored settings enable
    feedback, and not at all otherwise; capture is asked to cancel once. *)
Theorem C8_cancelRecording_ends_idle (w : World) :
  run cancelRecording_runInGlobalContentScript w = Success tt ->
  recorderState (exec cancelRecording_runInGlobalContentScript w) = "IDLE" /\
  exists s : Settings,
    persistedSettings w = Success s /\
    tally is_cancel_cue (exec cancelRecording_runInGlobalContentScript w) =
      tally is_cancel_cue w +
      (if String.eqb (recorderState w) "RECORDING" && isPlaySoundEnabled s
       then 1 else 0) /\
    tally is_capture (exec cancelRecording_runInGlobalContentScript w) =
      S (tally is_capture w).
Proof.
  intros Hrun.
  pose proof (run_exec cancelRecording_runInGlobalContentScript w) as H.
  rewrite Hrun in H. unfold cancelRecording_runInGlobalContentScript in H at 1.
  apply bind_success in H as (s & w1 & Hshim & H).
  apply getSettings_invokeFromGlobalContentScript_success in Hshim
    as (Hs & Hstate & Henv & Htally).
  apply bind_success in H as (st & w2 & Hget & H).
  rewrite recorderStateService_get_eval in Hget.
  destruct (recorderState_get_error (env w1)); [discriminate |].
  injection Hget as <- <-.
  apply bind_success in H as ([] & w3 & Hcancel & H).
  rewrite recorderService_cancelRecording_eval in Hcancel.
  injection Hcancel as _ <-.
  apply bind_success in H as ([] & w4 & Hwhen & H).
  rewrite when_play_eval in Hwhen. injection Hwhen as <-.
  apply bind_success in H as ([] & w5 & Hlog & H).
  unfold Effect_logInfo, emit, modify in Hlog. injection Hlog as <-.
  rewrite recorderStateService_set_eval in H.
  destruct (recorderState_set_error _); [discriminate |].
  injection H as H. rewrite <- H.
  split; [reflexivity |].
  exists s. split; [exact Hs |].
  rewrite !tally_with_recorderState, !tally_with_event, !tally_cued, !tally_with_event.
  rewrite !Htally by reflexivity. rewrite Hstate. cbn.
  rewrite andb_true_r, andb_false_r. split; [| lia].
  destruct (String.eqb (recorderState w) "RECORDING" && isPlaySoundEnabled s); lia.
Qed.

(** Cancelling while recording and cancelling while idle. *)
Lemma C8_cancelRecording_ends_idle_witness :
  run cancelRecording_runInGlobalContentScript recording_world = Success tt /\
  recorderState (exec cancelRecording_runInGlobalContentScript recording_world) = "IDLE" /\
  run cancelRecording_runInGlobalContentScript idle_world = Success tt /\
  recorderState (exec cancelRecording_runInGlobalContentScript idle_world) = "IDLE".
Proof.
  assert (H1 : run cancelRecording_runInGlobalContentScript recording_world = Success tt)
    by (vm_compute; reflexivity).
  assert (H2 : run cancelRecording_runInGlobalContentScript idle_world = Success tt)
    by (vm_compute; reflexivity).
  split; [exact H1 |].
  split; [exact (proj1 (C8_cancelRecording_ends_idle recording_world H1)) |].
  split; [exact H2 |].
  exact (proj1 (C8_cancelRecording_ends_idle idle_world H2)).
Defined.

(** ** The command table *)


(** Exactly one native context per command. *)
Lemma runIn_native (c : CommandName) (ctx : ExecutionContext) :
  is_Some (runIn c ctx) <-> ctx = nativeContext c.
Proof.
  destruct c, ctx; cbn; split; intros H;
    solve [reflexivity | discriminate | eexists; reflexivity
          | destruct H; discriminate].
Qed.

(** No command has a shim for its own native context. *)
Lemma invokeFrom_not_native (c : CommandName) :
  invokeFrom c (nativeContext c) = None.
Proof. destruct c; reflexivity. Qed.

(** The pairs of a command and a context for which a shim is defined. *)
Lemma invokeFrom_defined (c : CommandName) (ctx : ExecutionContext) :
  is_Some (invokeFrom c ctx) <->
  In (c, ctx)
    [ (openOptionsPage, GlobalContentScript);
      (getSettings, GlobalContentScript);
      (setSettings, GlobalContentScript);
      (toggleRecording, BackgroundServiceWorker);
      (toggleRecording, Popup);
      (cancelRecording, BackgroundServiceWorker);
      (cancelRecording, Popup) ].
Proof.
  destruct c, ctx; cbn; split; intros H;
    try solve [eexists; reflexivity];
    try solve [destruct H; discriminate];
    try solve [intuition discriminate];
    intuition congruence.
Qed.

(** The handler the dispatcher runs inline is the [runIn] member of the
    table. *)
Lemma runIn_nativeHandler (c : CommandName) :
  runIn c (nativeContext c) = Some (nativeHandler c).
Proof. destruct c; reflexivity. Qed.

(** The pairs of a command and a context that is not its native one and for
    which the table has no shim. *)
Lemma invokeFrom_undefined (c : CommandName) (ctx : ExecutionContext) :
  ctx <> nativeContext c /\ invokeFrom c ctx = None <->
  In (c, ctx)
    [ (openOptionsPage, Popup); (openOptionsPage, WhisperingContentScript);
      (getCurrentTabId, Popup); (getCurrentTabId, GlobalContentScript);
      (getCurrentTabId, WhisperingContentScript);
      (getSettings, Popup); (getSettings, BackgroundServiceWorker);
      (setSettings, Popup); (setSettings, BackgroundServiceWorker);
      (toggleRecording, WhisperingContentScript);
      (cancelRecording, WhisperingContentScript);
      (sendErrorToast, Popup); (sendErrorToast, BackgroundServiceWorker);
      (sendErrorToast, WhisperingContentScript) ].
Proof.
  destruct c, ctx; cbn; split;
    try solve [intros [H1 H2]; (discriminate || now contradiction H1)];
    try solve [intros _; split; [discriminate | reflexivity]];
    try solve [intuition discriminate];
    intuition congruence.
Qed.



(** ** The device fallback, when it runs *)

Lemma chosen_tab_In (first : Tab) (rest : list Tab) :
  In (chosen_tab first rest) (first :: rest).
Proof.
  unfold chosen_tab.
  destruct (List.find tab_pinned (first :: rest)) as [tab|] eqn:E.
  - now apply List.find_some in E.
  - now left.
Qed.

Lemma resolved_after_locator (w : World) (i : Z) :
  run getOrCreateWhisperingTabId w = Success i ->
  resolved (exec getOrCreateWhisperingTabId w) i.
Proof.
  unfold run, exec, resolved. rewrite getOrCreateWhisperingTabId_eval.
  destruct (tabs_query_rejects (env w)) eqn:Hq; [discriminate |].
  destruct (whisperingTabs w) as [|first l] eqn:Hw.
  - destruct (tabs_create_rejects (env w)); [discriminate |].
    cbn [fst snd]. intros Hi. split; [exact Hq |].
    exists (created_tab w), []. unfold whisperingTabs in *. cbn [tabs with_tabs].
    rewrite List.filter_app, Hw. split; [reflexivity |].
    unfold chosen_tab. cbn [List.find created_tab tab_pinned].
    destruct (tab_id (created_tab w)); [now injection Hi as -> | discriminate].
  - cbn [fst snd]. intros Hi. split; [exact Hq |].
    exists first, l. split; [exact Hw |].
    destruct (tab_id (chosen_tab first l)); [now injection Hi as -> | discriminate].
Qed.

Lemma resolved_locator (w : World) (i : Z) :
  resolved w i -> getOrCreateWhisperingTabId w = (Success i, w).
Proof.
  intros (Hq & first & rest & Hw & Hi).
  now rewrite getOrCreateWhisperingTabId_eval, Hq, Hw, Hi.
Qed.

(** The resolved identifier is the identifier of an open tab. *)
Lemma resolved_has_tab (w : World) (i : Z) :
  resolved w i -> existsb (has_id i) (tabs w) = true.
Proof.
  intros (_ & first & rest & Hw & Hi).
  apply List.existsb_exists. exists (chosen_tab first rest). split.
  - pose proof (chosen_tab_In first rest) as Hin. rewrite <- Hw in Hin.
    unfold whisperingTabs in Hin. now apply List.filter_In in Hin.
  - unfold has_id. rewrite Hi. apply Z.eqb_refl.
Qed.

Lemma resolved_frame (w w' : World) (i : Z) :
  resolved w i -> env w' = env w -> tabs w' = tabs w -> resolved w' i.
Proof.
  unfold resolved, whisperingTabs. intros H He Ht. now rewrite He, Ht.
Qed.

(** A message to the Whispering page, once the page is there: the listener
    runs on the world with the message recorded. *)
Lemma sendMessageToWhisperingContentScript_resolved {R}
    (m : WhisperingMessage R) (w : World) (i : Z) :
  resolved w i ->
  tabs_sendMessage_rejects (env w) = false ->
  sendMessageToWhisperingContentScript m w =
  match whisperingListener m
          (with_event (TabsSendMessage i (whispering_commandName m)) w) with
  | (Success r, w') => (Success r, w')
  | (_, w') =>
      (Die (Rejection "The message port closed before a response was received"), w')
  end.
Proof.
  intros Hres Hsend. unfold sendMessageToWhisperingContentScript.
  rewrite (bind_step _ _ _ _ _ (resolved_locator w i Hres)).
  unfold Effect_promise, chrome_tabs_sendMessage, bind, emit, modify.
  cbn [env with_event tabs]. rewrite Hsend, (resolved_has_tab w i Hres).
  reflexivity.
Qed.

Lemma getSettings_native_eval (w : World) (s : Settings) :
  persistedSettings w = Success s ->
  getSettings_runInWhisperingContentScript w = (Success s, w).
Proof.
  unfold persistedSettings, run, getSettings_runInWhisperingContentScript.
  destruct (getLocalStorage_total settings_key settingsSchema_parse defaultSettings w)
    as (s' & -> & _).
  cbn. now intros [= ->].
Qed.

(** With the Whispering page open and reachable, devices enumerated and the
    persisted device not among them, the fallback persists the first
    enumerated device and succeeds. *)
Lemma fallback_persists_first_device (w : World) (i : Z) (s : Settings)
    (first : MediaDeviceInfo) (others : list MediaDeviceInfo) :
  resolved w i ->
  tabs_sendMessage_rejects (env w) = false ->
  persistedSettings w = Success s ->
  ls_denied (localStorage w) = false ->
  ls_full (localStorage w) = false ->
  enumerateRecordingDevices_result (env w) = inr (first :: others) ->
  existsb (fun d => String.eqb (deviceId d) (selectedAudioInputDeviceId s))
    (first :: others) = false ->
  run checkAndUpdateSelectedAudioInputDevice w = Success tt /\
  persistedSettings (exec checkAndUpdateSelectedAudioInputDevice w) =
    Success (with_selectedAudioInputDeviceId (deviceId first) s) /\
  recorderState (exec checkAndUpdateSelectedAudioInputDevice w) = recorderState w.
Proof.
  intros Hres Hsend Hs Hden Hfull Hdev Hmiss.
  split; [| split];
    [| | apply (stable_checkAndUpdateSelectedAudioInputDevice recorderState);
         intros; intro; intros; reflexivity].
  all: unfold run, exec, checkAndUpdateSelectedAudioInputDevice, catchAll.
  all: set (w1 := with_event (TabsSendMessage i "getSettings") w).
  all: assert (H1 : getSettings_invokeFromGlobalContentScript w = (Success s, w1))
    by (unfold getSettings_invokeFromGlobalContentScript;
        rewrite (sendMessageToWhisperingContentScript_resolved _ w i Hres Hsend);
        cbn [whisperingListener whispering_commandName];
        rewrite (getSettings_native_eval _ s); [reflexivity |];
        rewrite <- Hs; now apply persistedSettings_storage).
  all: assert (Hres1 : resolved w1 i) by (now apply (resolved_frame w)).
  all: set (w2 := with_event (TabsSendMessage i "getSettings") w1).
  all: assert (H2 : getSettings_invokeFromGlobalContentScript w1 = (Success s, w2))
    by (unfold getSettings_invokeFromGlobalContentScript;
        rewrite (sendMessageToWhisperingContentScript_resolved _ w1 i Hres1 Hsend);
        cbn [whisperingListener whispering_commandName];
        rewrite (getSettings_native_eval _ s); [reflexivity |];
        rewrite <- Hs; now apply persistedSettings_storage).
  all: assert (Hres2 : resolved w2 i) by (now apply (resolved_frame w)).
  all: rewrite (bind_step _ _ _ _ _ H1).
  all: erewrite bind_step
    by (unfold enumerateRecordingDevices; cbn [env with_event w1];
        rewrite Hdev; reflexivity).
  all: cbv zeta; rewrite Hmiss; cbn [negb].
  all: rewrite (bind_step _ _ _ _ _ H2).
  all: unfold setSettings_invokeFromGlobalContentScript.
  all: rewrite (sendMessageToWhisperingContentScript_resolved _ w2 i Hres2 Hsend).
  all: cbn [whisperingListener whispering_commandName].
  all: unfold setSettings_runInWhisperingContentScript, setLocalStorage, Effect_try,
         localStorage_setItem.
  all: cbn [localStorage with_event w2 w1]; rewrite Hden, Hfull; cbn [fst snd].
  - reflexivity.
  - unfold persistedSettings, run, getSettings_runInWhisperingContentScript.
    rewrite (getLocalStorage_stored _ _ _
               (with_selectedAudioInputDeviceId (deviceId first) s)
               (JSON_stringify (with_selectedAudioInputDeviceId (deviceId first) s))
               (Settings_to_json (with_selectedAudioInputDeviceId (deviceId first) s)));
      [reflexivity | reflexivity | ..].
    + cbn [localStorage with_localStorage ls_items]. apply lookup_insert_eq.
    + apply JSONFacts.parse_stringify_settings.
    + apply JSONFacts.settingsSchema_parse_to_json.
Qed.

(** * Further properties of the command table *)

(** ** The locator's edges *)

Lemma locator_failure (w : World) (e : Error) :
  run getOrCreateWhisperingTabId w = Failure e -> e = locator_error.
Proof.
  unfold run. rewrite getOrCreateWhisperingTabId_eval.
  destruct (tabs_query_rejects (env w)); [discriminate |].
  destruct (whisperingTabs w) as [|first l].
  - destruct (tabs_create_rejects (env w)); [discriminate |].
    cbn [fst created_tab tab_id]. unfold locator_error.
    destruct (tabs_create_without_id (env w)); cbn; congruence.
  - cbn [fst]. unfold locator_error.
    destruct (tab_id (chosen_tab first l)); cbn; congruence.
Qed.

(** X1: the only typed failure of the locator is the one its [mapError]
    builds; a rejected [chrome.tabs.query] is a defect that leaves the world
    as it was. *)
Theorem X1_locator_failure_channel :
  (forall (w : World) (e : Error),
      run getOrCreateWhisperingTabId w = Failure e -> e = locator_error) /\
  (forall w : World,
      tabs_query_rejects (env w) = true ->
      getOrCreateWhisperingTabId w = (Die (Rejection "tabs.query"), w)).
Proof.
  split.
  - exact locator_failure.
  - intros w Hq. now rewrite getOrCreateWhisperingTabId_eval, Hq.
Qed.

(** A locator that finds a pinned page without identifier, and one whose
    query is rejected. *)
Lemma X1_locator_failure_channel_witness :
  run getOrCreateWhisperingTabId anonymous_peer_world = Failure locator_error /\
  run getOrCreateWhisperingTabId
    (world_in "IDLE" empty_storage
       (with_browser true false false false (quiet_env []))) =
  Die (Rejection "tabs.query").
Proof.
  split.
  - assert (H : exists e, run getOrCreateWhisperingTabId anonymous_peer_world = Failure e)
      by (eexists; reflexivity).
    destruct H as [e He]. rewrite He.
    now rewrite (proj1 X1_locator_failure_channel anonymous_peer_world e He).
  - unfold run.
    now rewrite (proj2 X1_locator_failure_channel
                   (world_in "IDLE" empty_storage
                      (with_browser true false false false (quiet_env [])))).
Defined.

(** X2: when the first pinned Whispering page has no identifier the locator
    fails, whatever other pages are open; it does not fall back to another
    page and does not create one. *)
Theorem X2_locator_pinned_without_id (w : World) (t : Tab) :
  tabs_query_rejects (env w) = false ->
  List.find tab_pinned (whisperingTabs w) = Some t ->
  tab_id t = None ->
  getOrCreateWhisperingTabId w = (Failure locator_error, w).
Proof.
  intros Hq Hfind Hid. rewrite getOrCreateWhisperingTabId_eval, Hq.
  destruct (whisperingTabs w) as [|first l]; [discriminate |].
  unfold chosen_tab. rewrite Hfind, Hid. reflexivity.
Qed.

Lemma X2_locator_pinned_without_id_witness :
  In unpinned_peer (whisperingTabs anonymous_peer_world) /\
  tab_id unpinned_peer = Some 3%Z /\
  getOrCreateWhisperingTabId anonymous_peer_world =
  (Failure locator_error, anonymous_peer_world).
Proof.
  split; [left; reflexivity |]. split; [reflexivity |].
  apply (X2_locator_pinned_without_id anonymous_peer_world anonymous_pinned_peer);
    reflexivity.
Defined.

(** X3: the locator never adds a tab while a Whispering page is open (then
    it leaves the whole world as it was, whatever it returns), and it never
    adds more than one: the tabs after a call are the tabs before, followed by
    at most the created one. *)
Theorem X3_locator_creates_at_most_one (w : World) :
  (whisperingTabs w <> [] -> exec getOrCreateWhisperingTabId w = w) /\
  (tabs (exec getOrCreateWhisperingTabId w) = tabs w \/
   whisperingTabs w = [] /\
   tabs (exec getOrCreateWhisperingTabId w) = tabs w ++ [created_tab w]).
Proof.
  unfold exec. rewrite getOrCreateWhisperingTabId_eval.
  destruct (tabs_query_rejects (env w)); [split; [reflexivity | now left] |].
  destruct (whisperingTabs w) as [|first l].
  - split; [congruence |].
    destruct (tabs_create_rejects (env w)); [now left | right; split; reflexivity].
  - split; [reflexivity | now left].
Qed.

Lemma X3_locator_creates_at_most_one_witness :
  exec getOrCreateWhisperingTabId two_peers_world = two_peers_world.
Proof.
  apply (proj1 (X3_locator_creates_at_most_one two_peers_world)). discriminate.
Defined.

(** X4: an identifier the locator returns is the identifier of a Whispering
    page that is open after the call. *)
Theorem X4_locator_result_is_open (w : World) (i : Z) :
  run getOrCreateWhisperingTabId w = Success i ->
  exists t : Tab,
    In t (tabs (exec getOrCreateWhisperingTabId w)) /\
    is_whispering t = true /\ tab_id t = Some i.
Proof.
  intros H. apply resolved_after_locator in H as (_ & first & rest & Hw & Hi).
  exists (chosen_tab first rest).
  pose proof (chosen_tab_In first rest) as Hin. rewrite <- Hw in Hin.
  unfold whisperingTabs in Hin. apply List.filter_In in Hin as [Hin Hwh].
  auto.
Qed.

Lemma X4_locator_result_is_open_witness :
  exists t : Tab,
    In t (tabs (exec getOrCreateWhisperingTabId idle_world)) /\
    is_whispering t = true /\ tab_id t = Some 8%Z.
Proof. apply X4_locator_result_is_open. reflexivity. Defined.

(** ** Writing the settings *)

(** X7: [setSettings] either stores the serialised document under the
    settings key, or fails with the typed error that carries what
    [localStorage] threw and leaves the world as it was; it never dies, and
    it never touches another key of the storage. *)
Theorem X7_setSettings_outcomes (X : Settings) (w : World) :
  (setSettings_runInWhisperingContentScript X w =
     (Success tt,
      with_localStorage
        {| ls_items := <[settings_key := JSON_stringify X]> (ls_items (localStorage w));
           ls_denied := false; ls_full := false |} w) \/
   exists cause,
     setSettings_runInWhisperingContentScript X w =
       (Failure (settings_write_error cause), w)) /\
  (forall k, k <> settings_key ->
     ls_items (localStorage (exec (setSettings_runInWhisperingContentScript X) w)) !! k =
     ls_items (localStorage w) !! k).
Proof.
  unfold exec, setSettings_runInWhisperingContentScript, setLocalStorage, Effect_try,
    localStorage_setItem.
  destruct (ls_denied (localStorage w)) eqn:Hd; cbn [fst snd].
  { split; [right; eexists; reflexivity | reflexivity]. }
  destruct (ls_full (localStorage w)) eqn:Hf; cbn [fst snd].
  { split; [right; eexists; reflexivity | reflexivity]. }
  split; [left; reflexivity |].
  intros k Hk. cbn [localStorage with_localStorage ls_items].
  apply lookup_insert_ne. congruence.
Qed.

Lemma X7_setSettings_outcomes_witness :
  ls_items (localStorage (exec (setSettings_runInWhisperingContentScript stale_settings)
                            idle_world)) !! "whispering-toast" = None /\
  setSettings_runInWhisperingContentScript defaultSettings full_storage_world =
    (Failure (settings_write_error (DOMException "QuotaExceededError")),
     full_storage_world).
Proof.
  split.
  - rewrite (proj2 (X7_setSettings_outcomes stale_settings idle_world)
               "whispering-toast"); [reflexivity | discriminate].
  - destruct (proj1 (X7_setSettings_outcomes defaultSettings full_storage_world))
      as [H | [cause H]]; [discriminate H | reflexivity].
Defined.

(** ** Opening the options page *)

(** X8: in the background, a rejected [chrome.runtime.openOptionsPage]
    becomes a typed error and the handler never dies; through the shim of the
    global content script the same command never ends in a typed error, and
    the options page is asked for exactly when the message is delivered. *)
Theorem X8_openOptionsPage_channels (w : World) :
  openOptionsPage_runInBackgroundServiceWorker w =
    (if runtime_openOptionsPage_rejects (env w)
     then Failure options_page_error else Success tt,
     with_event OpenOptionsPage w) /\
  (forall e, run openOptionsPage_invokeFromGlobalContentScript w <> Failure e) /\
  tally is_options_page (exec openOptionsPage_invokeFromGlobalContentScript w) =
    tally is_options_page w +
    (if runtime_sendMessage_rejects (env w) then 0 else 1).
Proof.
  split; [| split].
  - unfold openOptionsPage_runInBackgroundServiceWorker, Effect_tryPromise, Effect_try,
      chrome_runtime_openOptionsPage, bind, emit, modify. cbn.
    destruct (runtime_openOptionsPage_rejects (env w)); reflexivity.
  - intros e. unfold run, openOptionsPage_invokeFromGlobalContentScript,
      sendMessageToBackground, Effect_promise, chrome_runtime_sendMessage, bind, emit,
      modify. cbn [env with_event].
    destruct (runtime_sendMessage_rejects (env w)); [discriminate |].
    destruct (backgroundListener _ _) as [[[] | ? | ?] ?]; discriminate.
  - unfold exec, openOptionsPage_invokeFromGlobalContentScript,
      sendMessageToBackground, Effect_promise, chrome_runtime_sendMessage, bind, emit,
      modify, backgroundListener, openOptionsPage_runInBackgroundServiceWorker,
      Effect_tryPromise, Effect_try, chrome_runtime_openOptionsPage, bind, emit, modify.
    cbn [env with_event].
    destruct (runtime_sendMessage_rejects (env w)); cbn [fst snd].
    + rewrite tally_with_event. cbn. lia.
    + destruct (runtime_openOptionsPage_rejects (env w)); cbn [fst snd];
        rewrite !tally_with_event; cbn; lia.
Qed.

(** ** The shims of the settings commands *)

Lemma locator_keeps_messages (w : World) :
  tally is_tab_message (exec getOrCreateWhisperingTabId w) = tally is_tab_message w.
Proof.
  apply (stable_getOrCreateWhisperingTabId (tally is_tab_message)).
  - now apply tally_ignores_event.
  - intros l n w0. reflexivity.
Qed.

Lemma locator_keeps_localStorage (w : World) :
  localStorage (exec getOrCreateWhisperingTabId w) = localStorage w.
Proof.
  apply (stable_getOrCreateWhisperingTabId localStorage).
  - intros w0. reflexivity.
  - intros l n w0. reflexivity.
Qed.

Lemma locator_keeps_env (w : World) :
  env (exec getOrCreateWhisperingTabId w) = env w.
Proof.
  apply (stable_getOrCreateWhisperingTabId env).
  - intros w0. reflexivity.
  - intros l n w0. reflexivity.
Qed.

(** A message to the Whispering page from a world in which the locator
    resolves, possibly by creating the page. *)
Lemma sendMessageToWhisperingContentScript_located {R}
    (m : WhisperingMessage R) (w : World) (i : Z) :
  run getOrCreateWhisperingTabId w = Success i ->
  sendMessageToWhisperingContentScript m w =
  chrome_tabs_sendMessage i (whispering_commandName m) (whisperingListener m)
    (exec getOrCreateWhisperingTabId w).
Proof.
  intros H. unfold sendMessageToWhisperingContentScript, Effect_promise.
  assert (Hloc : getOrCreateWhisperingTabId w =
                 (Success i, exec getOrCreateWhisperingTabId w))
    by (rewrite run_exec; now rewrite H).
  now rewrite (bind_step _ _ _ _ _ Hloc).
Qed.

(** X9: a message to the Whispering page that ends in a typed failure failed
    in the locator: the error is the locator's, no message was sent and the
    page's storage is as it was.  A handler that fails in the page never
    surfaces as a typed error of the shim. *)
Theorem X9_whispering_shim_failure {R} (m : WhisperingMessage R) (w : World) (e : Error) :
  run (sendMessageToWhisperingContentScript m) w = Failure e ->
  e = locator_error /\
  run getOrCreateWhisperingTabId w = Failure locator_error /\
  tally is_tab_message (exec (sendMessageToWhisperingContentScript m) w) =
    tally is_tab_message w /\
  localStorage (exec (sendMessageToWhisperingContentScript m) w) = localStorage w.
Proof.
  intros Hrun.
  pose proof (run_exec getOrCreateWhisperingTabId w) as Hloc.
  destruct (run getOrCreateWhisperingTabId w) as [i | e' | t] eqn:Hr.
  - unfold run in Hrun.
    rewrite (sendMessageToWhisperingContentScript_located m w i Hr) in Hrun.
    unfold chrome_tabs_sendMessage, bind, emit, modify in Hrun.
    destruct (_ || _) in Hrun; [discriminate |].
    destruct (whisperingListener m _) as [[r | ? | ?] ?]; discriminate.
  - assert (Hm : sendMessageToWhisperingContentScript m w =
                 (Failure e', exec getOrCreateWhisperingTabId w))
      by (unfold sendMessageToWhisperingContentScript;
          now rewrite (bind_failure _ _ _ _ _ Hloc)).
    unfold run in Hrun. rewrite Hm in Hrun. cbn [fst] in Hrun.
    injection Hrun as <-.
    replace (exec (sendMessageToWhisperingContentScript m) w)
      with (exec getOrCreateWhisperingTabId w)
      by (unfold exec at 2; now rewrite Hm).
    pose proof (locator_failure w e' Hr) as ->.
    split; [reflexivity |]. split; [reflexivity |].
    split; [apply locator_keeps_messages | apply locator_keeps_localStorage].
  - assert (Hm : sendMessageToWhisperingContentScript m w =
                 (Die t, exec getOrCreateWhisperingTabId w))
      by (unfold sendMessageToWhisperingContentScript;
          now rewrite (bind_die _ _ _ _ _ Hloc)).
    unfold run in Hrun. rewrite Hm in Hrun. discriminate.
Qed.

Lemma X9_whispering_shim_failure_witness :
  run getSettings_invokeFromGlobalContentScript anonymous_peer_world =
    Failure locator_error /\
  tally is_tab_message
    (exec getSettings_invokeFromGlobalContentScript anonymous_peer_world) = 0.
Proof.
  assert (H : run (sendMessageToWhisperingContentScript Msg_getSettings)
                anonymous_peer_world = Failure locator_error) by reflexivity.
  split; [exact H |].
  apply (X9_whispering_shim_failure Msg_getSettings anonymous_peer_world _ H).
Defined.

(** X10: across contexts, a [setSettings] sent from the global content script
    that succeeds is read back by a [getSettings] sent from there: the page
    reached by the second message is the page the first one wrote to. *)
Theorem X10_settings_shims_round_trip (X : Settings) (w : World) :
  run (setSettings_invokeFromGlobalContentScript X) w = Success tt ->
  run getSettings_invokeFromGlobalContentScript
    (exec (setSettings_invokeFromGlobalContentScript X) w) = Success X.
Proof.
  intros Hrun.
  pose proof (run_exec (setSettings_invokeFromGlobalContentScript X) w) as H.
  rewrite Hrun in H.
  set (after := exec (setSettings_invokeFromGlobalContentScript X) w) in *.
  unfold setSettings_invokeFromGlobalContentScript,
    sendMessageToWhisperingContentScript in H.
  apply bind_success in H as (i & w0 & Hloc & Hsend).
  assert (Hres : resolved w0 i).
  { pose proof (resolved_after_locator w i) as Hr. unfold run, exec in Hr.
    rewrite Hloc in Hr. now apply Hr. }
  unfold Effect_promise, chrome_tabs_sendMessage in Hsend.
  apply bind_success in Hsend as ([] & wb & Hemit & Hrest).
  unfold emit, modify in Hemit. injection Hemit as Hwb.
  destruct (tabs_sendMessage_rejects (env wb)) eqn:Hrej; [discriminate |].
  cbn [orb] in Hrest. destruct (negb _); [discriminate |].
  cbn [whisperingListener] in Hrest.
  destruct (setSettings_runInWhisperingContentScript X wb) as [[[] | ? | ?] w1] eqn:Hset;
    try discriminate.
  injection Hrest as Hw1.
  assert (Hok : run (setLocalStorage settings_key (JSON_stringify X)) wb = Success tt)
    by (unfold run; unfold setSettings_runInWhisperingContentScript in Hset;
        now rewrite Hset).
  apply setLocalStorage_success in Hok as [_ Hexec].
  unfold exec in Hexec. unfold setSettings_runInWhisperingContentScript in Hset.
  rewrite Hset in Hexec. cbn [snd] in Hexec.
  assert (Henv : env after = env w0) by (rewrite <- Hw1, Hexec, <- Hwb; reflexivity).
  assert (Htabs : tabs after = tabs w0) by (rewrite <- Hw1, Hexec, <- Hwb; reflexivity).
  assert (Hres' : resolved after i) by (now apply (resolved_frame w0)).
  unfold run, getSettings_invokeFromGlobalContentScript.
  rewrite (sendMessageToWhisperingContentScript_resolved _ after i Hres').
  2:{ rewrite Henv. rewrite <- Hwb in Hrej. exact Hrej. }
  cbn [whisperingListener whispering_commandName].
  rewrite (getSettings_native_eval _ X); [reflexivity |].
  unfold persistedSettings, run, getSettings_runInWhisperingContentScript.
  rewrite (getLocalStorage_stored _ _ _ X (JSON_stringify X) (Settings_to_json X));
    [reflexivity | ..].
  - cbn [localStorage with_event]. now rewrite <- Hw1, Hexec.
  - cbn [localStorage with_event]. rewrite <- Hw1, Hexec.
    cbn [localStorage with_localStorage ls_items]. apply lookup_insert_eq.
  - apply JSONFacts.parse_stringify_settings.
  - apply JSONFacts.settingsSchema_parse_to_json.
Qed.

Lemma X10_settings_shims_round_trip_witness :
  run getSettings_invokeFromGlobalContentScript
    (exec (setSettings_invokeFromGlobalContentScript stale_settings) idle_world)
  = Success stale_settings.
Proof.
  apply X10_settings_shims_round_trip. vm_compute. reflexivity.
Defined.

Lemma getSettings_shim_keeps_localStorage (w : World) :
  localStorage (exec getSettings_invokeFromGlobalContentScript w) = localStorage w.
Proof.
  revert w. change (stable localStorage getSettings_invokeFromGlobalContentScript).
  unfold getSettings_invokeFromGlobalContentScript,
    sendMessageToWhisperingContentScript, Effect_promise.
  apply stable_bind.
  - apply stable_getOrCreateWhisperingTabId; intros; intro; intros; reflexivity.
  - intros i. apply stable_tabs_sendMessage; [intros w; reflexivity |].
    apply stable_getLocalStorage.
Qed.

(** X11: [getSettings] sent from the global content script answers with the
    document the page holds and leaves the recorder state and the page's
    storage alone; it succeeds whenever the locator resolves a page and the
    message is delivered. *)
Theorem X11_getSettings_shim (w : World) :
  (forall s, run getSettings_invokeFromGlobalContentScript w = Success s ->
     persistedSettings w = Success s /\
     recorderState (exec getSettings_invokeFromGlobalContentScript w) = recorderState w /\
     localStorage (exec getSettings_invokeFromGlobalContentScript w) = localStorage w) /\
  (forall i, run getOrCreateWhisperingTabId w = Success i ->
     tabs_sendMessage_rejects (env w) = false ->
     run getSettings_invokeFromGlobalContentScript w = persistedSettings w).
Proof.
  split.
  - intros s Hrun.
    pose proof (run_exec getSettings_invokeFromGlobalContentScript w) as H.
    rewrite Hrun in H.
    destruct (getSettings_invokeFromGlobalContentScript_success _ _ _ H)
      as (Hs & Hstate & _ & _).
    split; [exact Hs |]. split; [exact Hstate |].
    apply getSettings_shim_keeps_localStorage.
  - intros i Hloc Hsend.
    unfold run at 1, getSettings_invokeFromGlobalContentScript.
    rewrite (sendMessageToWhisperingContentScript_located _ w i Hloc).
    pose proof (resolved_after_locator w i Hloc) as Hres.
    set (w0 := exec getOrCreateWhisperingTabId w) in *.
    unfold chrome_tabs_sendMessage, bind, emit, modify.
    cbn [env with_event tabs].
    rewrite (resolved_has_tab w0 i Hres).
    unfold w0 at 1. rewrite locator_keeps_env, Hsend. cbn [orb negb].
    cbn [whisperingListener whispering_commandName].
    destruct (getLocalStorage_total settings_key settingsSchema_parse defaultSettings
                (with_event (TabsSendMessage i "getSettings") w0)) as (s & Heq & _).
    unfold getSettings_runInWhisperingContentScript. rewrite Heq. cbn [fst].
    transitivity (persistedSettings (with_event (TabsSendMessage i "getSettings") w0)).
    + unfold persistedSettings, run, getSettings_runInWhisperingContentScript.
      now rewrite Heq.
    + apply persistedSettings_storage. cbn [localStorage with_event].
      apply locator_keeps_localStorage.
Qed.

Lemma X11_getSettings_shim_witness :
  run getSettings_invokeFromGlobalContentScript stale_device_world =
  Success stale_settings.
Proof.
  rewrite (proj2 (X11_getSettings_shim stale_device_world) 8%Z);
    [vm_compute; reflexivity | reflexivity | reflexivity].
Defined.

(** ** The active tab *)

Lemma getActiveTabId_eval (w : World) :
  getActiveTabId w =
  if tabs_query_rejects (env w) then (Failure active_tabs_error, w)
  else
    match List.filter tab_active (tabs w) with
    | [] => (Die (TypeError "Cannot read properties of undefined (reading 'id')"), w)
    | firstActiveTab :: _ =>
        match tab_id firstActiveTab with
        | Some i =>
            if Z.eqb i 0 then (Failure no_active_tab_id_error, w) else (Success i, w)
        | None => (Failure no_active_tab_id_error, w)
        end
    end.
Proof.
  unfold getActiveTabId, Effect_tryPromise, Effect_try, bind, chrome_tabs_query.
  destruct (tabs_query_rejects (env w)); [reflexivity |].
  destruct (List.filter tab_active (tabs w)) as [|t l]; [reflexivity |].
  destruct (tab_id t) as [i|]; [destruct (Z.eqb i 0) |]; reflexivity.
Qed.

Lemma getCurrentTabId_eval (w : World) :
  getCurrentTabId_runInBackgroundServiceWorker w =
  if tabs_query_rejects (env w) then (Failure active_tabs_error, w)
  else
    match List.filter tab_active (tabs w) with
    | [] => (Failure (InvokeCommandError "No active tab found" None), w)
    | firstActiveTab :: _ => (Success (tab_id firstActiveTab), w)
    end.
Proof.
  unfold getCurrentTabId_runInBackgroundServiceWorker, Effect_tryPromise, Effect_try,
    bind, chrome_tabs_query.
  destruct (tabs_query_rejects (env w)); [reflexivity |].
  destruct (List.filter tab_active (tabs w)) as [|t l]; reflexivity.
Qed.

(** X5: an identifier [getActiveTabId] returns is never zero and is the
    identifier of the first active tab, which the [getCurrentTabId] command
    returns as well; neither of them changes the world. *)
Theorem X5_getActiveTabId_result (w : World) (i : Z) :
  run getActiveTabId w = Success i ->
  i <> 0%Z /\
  (exists t rest, List.filter tab_active (tabs w) = t :: rest /\ tab_id t = Some i) /\
  getActiveTabId w = (Success i, w) /\
  getCurrentTabId_runInBackgroundServiceWorker w = (Success (Some i), w).
Proof.
  unfold run. rewrite getActiveTabId_eval, getCurrentTabId_eval.
  destruct (tabs_query_rejects (env w)); [discriminate |].
  destruct (List.filter tab_active (tabs w)) as [|t l]; [discriminate |].
  destruct (tab_id t) as [j|] eqn:Hid; [| discriminate].
  destruct (Z.eqb j 0) eqn:Hz; [discriminate |].
  cbn [fst]. intros [= ->]. apply Z.eqb_neq in Hz.
  split; [assumption |]. split; [now exists t, l |].
  split; reflexivity.
Qed.

Lemma X5_getActiveTabId_result_witness :
  getActiveTabId idle_world = (Success 7%Z, idle_world) /\
  getCurrentTabId_runInBackgroundServiceWorker idle_world = (Success (Some 7%Z), idle_world).
Proof.
  assert (H : run getActiveTabId idle_world = Success 7%Z) by reflexivity.
  split; apply (X5_getActiveTabId_result idle_world 7 H).
Defined.

(** X6: where the two lookups of the active tab differ.  With no active tab
    the [getCurrentTabId] command fails with a typed error while
    [getActiveTabId] dies reading [id] of [undefined]; with a first active tab
    numbered zero the command returns it while [getActiveTabId] reports that
    no identifier was found.  A rejected query is the same typed failure in
    both. *)
Theorem X6_active_tab_lookups_differ (w : World) :
  (tabs_query_rejects (env w) = true ->
   run getActiveTabId w = Failure active_tabs_error /\
   run getCurrentTabId_runInBackgroundServiceWorker w = Failure active_tabs_error) /\
  (tabs_query_rejects (env w) = false ->
   List.filter tab_active (tabs w) = [] ->
   run getCurrentTabId_runInBackgroundServiceWorker w =
     Failure (InvokeCommandError "No active tab found" None) /\
   run getActiveTabId w =
     Die (TypeError "Cannot read properties of undefined (reading 'id')")) /\
  (forall t rest,
      tabs_query_rejects (env w) = false ->
      List.filter tab_active (tabs w) = t :: rest ->
      tab_id t = Some 0%Z ->
      run getCurrentTabId_runInBackgroundServiceWorker w = Success (Some 0%Z) /\
      run getActiveTabId w = Failure no_active_tab_id_error).
Proof.
  unfold run. rewrite getActiveTabId_eval, getCurrentTabId_eval.
  split; [| split].
  - intros ->. split; reflexivity.
  - intros -> ->. split; reflexivity.
  - intros t rest -> -> Hid. rewrite Hid. split; reflexivity.
Qed.

Lemma X6_active_tab_lookups_differ_witness :
  run getActiveTabId no_active_tab_world =
    Die (TypeError "Cannot read properties of undefined (reading 'id')") /\
  run getActiveTabId tab_zero_world = Failure no_active_tab_id_error /\
  run getActiveTabId
    (world_in "IDLE" empty_storage (with_browser true false false false (quiet_env [])))
  = Failure active_tabs_error.
Proof.
  split; [| split].
  - apply (proj1 (proj2 (X6_active_tab_lookups_differ no_active_tab_world)));
      reflexivity.
  - eapply (proj2 (proj2 (X6_active_tab_lookups_differ tab_zero_world)));
      reflexivity.
  - apply (proj1 (X6_active_tab_lookups_differ _)). reflexivity.
Defined.

(** ** The device fallback *)

Lemma fallback_keeps_recorderState (w : World) :
  recorderState (exec checkAndUpdateSelectedAudioInputDevice w) = recorderState w.
Proof.
  apply (stable_checkAndUpdateSelectedAudioInputDevice recorderState);
    intros; intro; intros; reflexivity.
Qed.

Lemma fallback_keeps_capture (w : World) :
  tally is_capture (exec checkAndUpdateSelectedAudioInputDevice w) = tally is_capture w.
Proof.
  apply (stable_checkAndUpdateSelectedAudioInputDevice (tally is_capture)).
  - now apply tally_ignores_event.
  - intros i name. now apply tally_ignores_event.
  - intros l n w0. reflexivity.
  - intros ls w0. reflexivity.
Qed.

(** What the fallback does once the settings have been read. *)
Lemma fallback_after_settings (w : World) (s : Settings) :
  run getSettings_invokeFromGlobalContentScript w = Success s ->
  checkAndUpdateSelectedAudioInputDevice w =
  catchAll
    (recordingDevices <- enumerateRecordingDevices ;;
     if negb (existsb (fun d => String.eqb (deviceId d) (selectedAudioInputDeviceId s))
                recordingDevices)
     then
       match recordingDevices with
       | [] => die undefined_deviceId
       | first :: _ =>
           oldSettings <- getSettings_invokeFromGlobalContentScript ;;
           setSettings_invokeFromGlobalContentScript
             (with_selectedAudioInputDeviceId (deviceId first) oldSettings)
       end
     else succeed tt)
    (fun _ => succeed tt)
    (exec getSettings_invokeFromGlobalContentScript w).
Proof.
  intros Hrun.
  pose proof (run_exec getSettings_invokeFromGlobalContentScript w) as H.
  rewrite Hrun in H.
  unfold checkAndUpdateSelectedAudioInputDevice, catchAll.
  now rewrite (bind_step _ _ _ _ _ H).
Qed.

(** X12: the fallback never ends in a typed failure and never touches the
    recorder state or the recorder; when the Whispering page cannot be
    located, or when the devices cannot be enumerated, it succeeds without
    writing anything. *)
Theorem X12_fallback_swallows_failures (w : World) :
  (forall e, run checkAndUpdateSelectedAudioInputDevice w <> Failure e) /\
  recorderState (exec checkAndUpdateSelectedAudioInputDevice w) = recorderState w /\
  tally is_capture (exec checkAndUpdateSelectedAudioInputDevice w) = tally is_capture w /\
  (forall e, run getOrCreateWhisperingTabId w = Failure e ->
     run checkAndUpdateSelectedAudioInputDevice w = Success tt /\
     localStorage (exec checkAndUpdateSelectedAudioInputDevice w) = localStorage w) /\
  (forall s e,
     run getSettings_invokeFromGlobalContentScript w = Success s ->
     enumerateRecordingDevices_result (env w) = inl e ->
     run checkAndUpdateSelectedAudioInputDevice w = Success tt /\
     localStorage (exec checkAndUpdateSelectedAudioInputDevice w) = localStorage w).
Proof.
  split; [| split; [| split; [| split]]].
  - intros e. unfold run, checkAndUpdateSelectedAudioInputDevice, catchAll.
    destruct (bind _ _ w) as [[[] | ? | ?] w1]; cbn; discriminate.
  - apply fallback_keeps_recorderState.
  - apply fallback_keeps_capture.
  - intros e Hloc.
    pose proof (run_exec getOrCreateWhisperingTabId w) as H. rewrite Hloc in H.
    assert (Hshim : getSettings_invokeFromGlobalContentScript w =
                    (Failure e, exec getOrCreateWhisperingTabId w))
      by (unfold getSettings_invokeFromGlobalContentScript,
            sendMessageToWhisperingContentScript;
          now rewrite (bind_failure _ _ _ _ _ H)).
    unfold run, exec, checkAndUpdateSelectedAudioInputDevice, catchAll.
    rewrite (bind_failure _ _ _ _ _ Hshim). cbn [fst snd succeed].
    split; [reflexivity | apply locator_keeps_localStorage].
  - intros s e Hs Hdev.
    unfold run, exec. rewrite (fallback_after_settings w s Hs).
    assert (Henv : env (exec getSettings_invokeFromGlobalContentScript w) = env w).
    { pose proof (run_exec getSettings_invokeFromGlobalContentScript w) as H.
      rewrite Hs in H.
      now destruct (getSettings_invokeFromGlobalContentScript_success _ _ _ H)
        as (_ & _ & Henv & _). }
    unfold catchAll, bind, enumerateRecordingDevices.
    rewrite Henv, Hdev. cbn [fst snd succeed].
    split; [reflexivity | apply getSettings_shim_keeps_localStorage].
Qed.

Lemma X12_fallback_swallows_failures_witness :
  run checkAndUpdateSelectedAudioInputDevice anonymous_peer_world = Success tt /\
  run checkAndUpdateSelectedAudioInputDevice
    (world_in "IDLE" empty_storage no_enumeration_env) = Success tt.
Proof.
  split.
  - apply (proj1 (proj2 (proj2 (proj2 (X12_fallback_swallows_failures
                                          anonymous_peer_world)))) locator_error).
    reflexivity.
  - apply (proj2 (proj2 (proj2 (proj2 (X12_fallback_swallows_failures
                                          (world_in "IDLE" empty_storage
                                             no_enumeration_env)))))
             defaultSettings (RecorderError "NotFoundError"));
      [vm_compute; reflexivity | reflexivity].
Defined.

(** X13: when the persisted device is among the enumerated devices the
    fallback only reads: it succeeds after the one [getSettings] round trip
    and the stored settings are as they were. *)
Theorem X13_fallback_keeps_present_device (w : World) (s : Settings)
    (devices : list MediaDeviceInfo) :
  run getSettings_invokeFromGlobalContentScript w = Success s ->
  enumerateRecordingDevices_result (env w) = inr devices ->
  existsb (fun d => String.eqb (deviceId d) (selectedAudioInputDeviceId s)) devices
  = true ->
  checkAndUpdateSelectedAudioInputDevice w =
    (Success tt, exec getSettings_invokeFromGlobalContentScript w) /\
  localStorage (exec checkAndUpdateSelectedAudioInputDevice w) = localStorage w.
Proof.
  intros Hs Hdev Hin.
  assert (Henv : env (exec getSettings_invokeFromGlobalContentScript w) = env w).
  { pose proof (run_exec getSettings_invokeFromGlobalContentScript w) as H.
    rewrite Hs in H.
    now destruct (getSettings_invokeFromGlobalContentScript_success _ _ _ H)
      as (_ & _ & Henv & _). }
  assert (Heq : checkAndUpdateSelectedAudioInputDevice w =
                (Success tt, exec getSettings_invokeFromGlobalContentScript w)).
  { rewrite (fallback_after_settings w s Hs).
    unfold catchAll, bind, enumerateRecordingDevices.
    rewrite Henv, Hdev, Hin. reflexivity. }
  split; [exact Heq |].
  unfold exec at 1. rewrite Heq. apply getSettings_shim_keeps_localStorage.
Qed.

Lemma X13_fallback_keeps_present_device_witness :
  run checkAndUpdateSelectedAudioInputDevice present_device_world = Success tt /\
  localStorage (exec checkAndUpdateSelectedAudioInputDevice present_device_world) =
  localStorage present_device_world.
Proof.
  assert (Hs : run getSettings_invokeFromGlobalContentScript present_device_world
               = Success mic_settings) by (vm_compute; reflexivity).
  destruct (X13_fallback_keeps_present_device present_device_world mic_settings
              [builtin_microphone] Hs eq_refl eq_refl) as [Heq Hls].
  split; [unfold run; now rewrite Heq | exact Hls].
Defined.

Lemma getSettings_shim_located (w : World) (i : Z) :
  run getOrCreateWhisperingTabId w = Success i ->
  getSettings_invokeFromGlobalContentScript w =
  getSettings_invokeFromGlobalContentScript (exec getOrCreateWhisperingTabId w).
Proof.
  intros Hloc. unfold getSettings_invokeFromGlobalContentScript.
  rewrite (sendMessageToWhisperingContentScript_located _ w i Hloc).
  pose proof (getOrCreateWhisperingTabId_converges w i Hloc) as Hconv.
  set (w0 := exec getOrCreateWhisperingTabId w) in *.
  assert (Hrun : run getOrCreateWhisperingTabId w0 = Success i)
    by (unfold run; now rewrite Hconv).
  rewrite (sendMessageToWhisperingContentScript_located _ w0 i Hrun).
  unfold exec. now rewrite Hconv.
Qed.

(** X14: when the locator can resolve the Whispering page (creating it if
    need be), messages are delivered and the page's storage accepts writes,
    a persisted device that is not among the enumerated devices is replaced
    by the first enumerated one: the fallback succeeds and the page then
    holds the former document with that device. *)
Theorem X14_fallback_substitutes (w : World) (i : Z) (s : Settings)
    (first : MediaDeviceInfo) (others : list MediaDeviceInfo) :
  run getOrCreateWhisperingTabId w = Success i ->
  tabs_sendMessage_rejects (env w) = false ->
  persistedSettings w = Success s ->
  ls_denied (localStorage w) = false ->
  ls_full (localStorage w) = false ->
  enumerateRecordingDevices_result (env w) = inr (first :: others) ->
  existsb (fun d => String.eqb (deviceId d) (selectedAudioInputDeviceId s))
    (first :: others) = false ->
  run checkAndUpdateSelectedAudioInputDevice w = Success tt /\
  persistedSettings (exec checkAndUpdateSelectedAudioInputDevice w) =
    Success (with_selectedAudioInputDeviceId (deviceId first) s).
Proof.
  intros Hloc Hsend Hs Hden Hfull Hdev Hmiss.
  pose proof (resolved_after_locator w i Hloc) as Hres.
  set (w0 := exec getOrCreateWhisperingTabId w) in *.
  assert (Heq : checkAndUpdateSelectedAudioInputDevice w =
                checkAndUpdateSelectedAudioInputDevice w0).
  { unfold checkAndUpdateSelectedAudioInputDevice, catchAll, bind.
    now rewrite (getSettings_shim_located w i Hloc). }
  assert (Henv : env w0 = env w) by apply locator_keeps_env.
  assert (Hls : localStorage w0 = localStorage w) by apply locator_keeps_localStorage.
  assert (Hs0 : persistedSettings w0 = Success s)
    by (rewrite <- Hs; now apply persistedSettings_storage).
  rewrite <- Henv in Hsend, Hdev. rewrite <- Hls in Hden, Hfull.
  destruct (fallback_persists_first_device w0 i s first others
              Hres Hsend Hs0 Hden Hfull Hdev Hmiss) as (Hrun & Hp & _).
  unfold run, exec in *. rewrite Heq. now split.
Qed.

Lemma X14_fallback_substitutes_witness :
  run checkAndUpdateSelectedAudioInputDevice stale_device_world = Success tt /\
  persistedSettings (exec checkAndUpdateSelectedAudioInputDevice stale_device_world) =
    Success (with_selectedAudioInputDeviceId "mic-1" stale_settings).
Proof.
  apply (X14_fallback_substitutes stale_device_world 8%Z stale_settings
           builtin_microphone []); reflexivity.
Defined.

(** X15: with no input device at all the fallback throws while reading the
    first device; the defect is not caught by its [catchAll], so a
    [toggleRecording] whose settings carry a credential dies there, before it
    reads the recorder state. *)
Theorem X15_fallback_without_devices (settings : ToggleSettings) (w : World)
    (s : Settings) :
  run getSettings_invokeFromGlobalContentScript w = Success s ->
  enumerateRecordingDevices_result (env w) = inr [] ->
  checkAndUpdateSelectedAudioInputDevice w =
    (Die undefined_deviceId, exec getSettings_invokeFromGlobalContentScript w) /\
  (toggle_apiKey settings <> EmptyString ->
   toggleRecording_from settings w =
     (Die undefined_deviceId, exec getSettings_invokeFromGlobalContentScript w)).
Proof.
  intros Hs Hdev.
  assert (Henv : env (exec getSettings_invokeFromGlobalContentScript w) = env w).
  { pose proof (run_exec getSettings_invokeFromGlobalContentScript w) as H.
    rewrite Hs in H.
    now destruct (getSettings_invokeFromGlobalContentScript_success _ _ _ H)
      as (_ & _ & Henv & _). }
  assert (Heq : checkAndUpdateSelectedAudioInputDevice w =
                (Die undefined_deviceId,
                 exec getSettings_invokeFromGlobalContentScript w)).
  { rewrite (fallback_after_settings w s Hs).
    unfold catchAll, bind, enumerateRecordingDevices.
    rewrite Henv, Hdev. reflexivity. }
  split; [exact Heq |].
  intros Hkey. unfold toggleRecording_from.
  destruct (toggle_apiKey settings); [congruence |]. cbn [is_empty].
  now rewrite (bind_die _ _ _ _ _ Heq).
Qed.

Lemma X15_fallback_without_devices_witness :
  run checkAndUpdateSelectedAudioInputDevice no_device_world = Die undefined_deviceId /\
  run (toggleRecording_from configured_settings) no_device_world =
  Die undefined_deviceId.
Proof.
  assert (Hs : run getSettings_invokeFromGlobalContentScript no_device_world
               = Success stale_settings) by (vm_compute; reflexivity).
  destruct (X15_fallback_without_devices configured_settings no_device_world
              stale_settings Hs eq_refl) as [H1 H2].
  split; unfold run; [now rewrite H1 | rewrite H2; [reflexivity | discriminate]].
Defined.

(** ** The body of [toggleRecording] behind the guard *)

Lemma env_cued (enabled : bool) (cue : Cue) (w : World) :
  env (cued enabled cue w) = env w.
Proof. now destruct enabled. Qed.

Lemma recorderState_cued (enabled : bool) (cue : Cue) (w : World) :
  recorderState (cued enabled cue w) = recorderState w.
Proof. now destruct enabled. Qed.

(** The switch, outcome by outcome. *)
Lemma toggle_switch_eval (settings : ToggleSettings) (w : World) :
  toggle_switch settings w =
  match recorderState_get_error (env w) with
  | Some e => (Failure e, w)
  | None =>
      if String.eqb (recorderState w) "IDLE" then
        let device := toggle_selectedAudioInputDeviceId settings in
        let started := with_event (StartRecording device) w in
        match startRecording_error (env w) device with
        | Some e => (Failure e, started)
        | None =>
            let logged :=
              with_event (LogInfo "Recording started")
                (cued (toggle_isPlaySoundEnabled settings) startSound started) in
            match recorderState_set_error (env w) with
            | Some e => (Failure e, logged)
            | None => (Success tt, with_recorderState "RECORDING" logged)
            end
        end
      else if String.eqb (recorderState w) "RECORDING" then
        let stopped := with_event StopRecording w in
        match stopRecording_error (env w) with
        | Some e => (Failure e, stopped)
        | None =>
            let logged :=
              with_event (LogInfo "Recording stopped")
                (cued (toggle_isPlaySoundEnabled settings) stopSound stopped) in
            match recorderState_set_error (env w) with
            | Some e => (Failure e, logged)
            | None => (Success tt, with_recorderState "IDLE" logged)
            end
        end
      else (Success tt, with_event (LogError "Invalid recorder state") w)
  end.
Proof.
  unfold toggle_switch, bind at 1. rewrite recorderStateService_get_eval.
  destruct (recorderState_get_error (env w)); [reflexivity |].
  destruct (String.eqb (recorderState w) "IDLE").
  - unfold bind at 1. rewrite recorderService_startRecording_eval.
    destruct (startRecording_error _ _); [reflexivity |].
    unfold bind at 1. rewrite when_play_eval.
    unfold bind at 1, Effect_logInfo, emit, modify.
    rewrite recorderStateService_set_eval. cbn [env with_event].
    rewrite env_cued. cbn [env with_event].
    destruct (recorderState_set_error (env w)); reflexivity.
  - destruct (String.eqb (recorderState w) "RECORDING"); [| reflexivity].
    unfold bind at 1. rewrite recorderService_stopRecording_eval.
    destruct (stopRecording_error _); [reflexivity |].
    unfold bind at 1. rewrite when_play_eval.
    unfold bind at 1, Effect_logInfo, emit, modify.
    rewrite recorderStateService_set_eval. cbn [env with_event].
    rewrite env_cued. cbn [env with_event].
    destruct (recorderState_set_error (env w)); reflexivity.
Qed.

(** With a credential the handler is the fallback followed by the switch. *)
Lemma toggleRecording_from_switch (settings : ToggleSettings) (w : World) :
  toggle_apiKey settings <> EmptyString ->
  toggleRecording_from settings w =
  (checkAndUpdateSelectedAudioInputDevice ;;; toggle_switch settings) w.
Proof.
  intros H. unfold toggleRecording_from.
  destruct (toggle_apiKey settings); [congruence | reflexivity].
Qed.

(** X18: a [toggleRecording] that does not end in success leaves the stored
    recorder state as it was, wherever it stopped: at the guard, in the
    device fallback, at the recorder or at the commit of the state.  This
    holds for every value of the local binding [settings], the literal of the
    handler included. *)
Theorem X18_toggle_failure_keeps_state (settings : ToggleSettings) (w : World) :
  run (toggleRecording_from settings) w <> Success tt ->
  recorderState (exec (toggleRecording_from settings) w) = recorderState w.
Proof.
  destruct (toggle_apiKey settings) as [| c key] eqn:Hempty.
  { intros _.
    apply (guard_path_opens_configuration_only (toggleRecording_from settings) w).
    now rewrite toggleRecording_from_no_credential. }
  assert (Hkey : toggle_apiKey settings <> EmptyString) by (rewrite Hempty; discriminate).
  clear Hempty. unfold run, exec.
  rewrite (toggleRecording_from_switch settings w Hkey). unfold bind.
  pose proof (fallback_keeps_recorderState w) as Hfb. unfold exec in Hfb.
  destruct (checkAndUpdateSelectedAudioInputDevice w) as [[[] | e | t] w1];
    cbn [fst snd] in *; try (intros _; exact Hfb).
  rewrite toggle_switch_eval, <- Hfb.
  destruct (recorderState_get_error (env w1)); [reflexivity |].
  destruct (String.eqb (recorderState w1) "IDLE").
  - cbv zeta. destruct (startRecording_error _ _); [reflexivity |].
    destruct (recorderState_set_error _); cbn [fst snd];
      [intros _; cbn [recorderState with_event]; now rewrite recorderState_cued
      | congruence].
  - destruct (String.eqb (recorderState w1) "RECORDING"); [| reflexivity].
    cbv zeta. destruct (stopRecording_error _); [reflexivity |].
    destruct (recorderState_set_error _); cbn [fst snd];
      [intros _; cbn [recorderState with_event]; now rewrite recorderState_cued
      | congruence].
Qed.

(** The handler as written when the background cannot be reached, and its
    body with the stored fields when the recorder refuses to start. *)
Lemma X18_toggle_failure_keeps_state_witness :
  run toggleRecording_runInGlobalContentScript unreachable_background_world
  = Die (Rejection "Could not establish connection") /\
  recorderState
    (exec toggleRecording_runInGlobalContentScript unreachable_background_world)
  = "IDLE" /\
  run (toggleRecording_from configured_settings) refused_capture_world
  = Failure recorder_failure /\
  recorderState (exec (toggleRecording_from configured_settings) refused_capture_world)
  = "IDLE".
Proof.
  assert (H1 : run (toggleRecording_from toggleRecording_settings)
                 unreachable_background_world
               = Die (Rejection "Could not establish connection"))
    by (vm_compute; reflexivity).
  assert (H2 : run (toggleRecording_from configured_settings) refused_capture_world
               = Failure recorder_failure) by (vm_compute; reflexivity).
  split; [exact H1 |].
  split.
  { apply (X18_toggle_failure_keeps_state toggleRecording_settings
             unreachable_background_world).
    rewrite H1. discriminate. }
  split; [exact H2 |].
  apply (X18_toggle_failure_keeps_state configured_settings refused_capture_world).
  rewrite H2. discriminate.
Defined.

(** ** [cancelRecording], outcome by outcome *)

Lemma cancelRecording_eval (w : World) (s : Settings) :
  run getSettings_invokeFromGlobalContentScript w = Success s ->
  cancelRecording_runInGlobalContentScript w =
  let w1 := exec getSettings_invokeFromGlobalContentScript w in
  match recorderState_get_error (env w) with
  | Some e => (Failure e, w1)
  | None =>
      let asked := with_event CancelRecording w1 in
      match cancelRecording_error (env w) with
      | Some e => (Failure e, asked)
      | None =>
          let logged :=
            with_event (LogInfo "Recording cancelled")
              (cued (String.eqb (recorderState w) "RECORDING" && isPlaySoundEnabled s)
                 cancelSound asked) in
          match recorderState_set_error (env w) with
          | Some e => (Failure e, logged)
          | None => (Success tt, with_recorderState "IDLE" logged)
          end
      end
  end.
Proof.
  intros Hrun.
  pose proof (run_exec getSettings_invokeFromGlobalContentScript w) as H.
  rewrite Hrun in H.
  destruct (getSettings_invokeFromGlobalContentScript_success _ _ _ H)
    as (_ & Hst & Henv & _).
  set (w1 := exec getSettings_invokeFromGlobalContentScript w) in *.
  unfold cancelRecording_runInGlobalContentScript.
  rewrite (bind_step _ _ _ _ _ H).
  unfold bind at 1. rewrite recorderStateService_get_eval, Henv.
  destruct (recorderState_get_error (env w)); [reflexivity |].
  unfold bind at 1. rewrite recorderService_cancelRecording_eval, Henv.
  destruct (cancelRecording_error (env w)); [reflexivity |].
  unfold bind at 1. rewrite when_play_eval.
  unfold bind at 1, Effect_logInfo, emit, modify.
  rewrite recorderStateService_set_eval. cbn [env with_event].
  rewrite env_cued. cbn [env with_event]. rewrite Henv, Hst.
  destruct (recorderState_set_error (env w)); reflexivity.
Qed.

Lemma cancelRecording_no_settings (w : World) :
  is_success (run getSettings_invokeFromGlobalContentScript w) = false ->
  is_success (run cancelRecording_runInGlobalContentScript w) = false /\
  exec cancelRecording_runInGlobalContentScript w =
  exec getSettings_invokeFromGlobalContentScript w.
Proof.
  unfold run, exec, cancelRecording_runInGlobalContentScript, bind.
  destruct (getSettings_invokeFromGlobalContentScript w) as [[s | e | t] w1];
    cbn; [discriminate | split; reflexivity | split; reflexivity].
Qed.

Lemma getSettings_shim_keeps (w : World) :
  recorderState (exec getSettings_invokeFromGlobalContentScript w) = recorderState w /\
  forall p : Event -> bool,
    (forall url, p (TabsCreate url) = false) ->
    (forall i name, p (TabsSendMessage i name) = false) ->
    tally p (exec getSettings_invokeFromGlobalContentScript w) = tally p w.
Proof.
  split.
  - apply (stable_sendMessageToWhisperingContentScript recorderState Msg_getSettings);
      intros; intro; intros; reflexivity.
  - intros p Hc Hm.
    apply (stable_sendMessageToWhisperingContentScript (tally p) Msg_getSettings).
    + now apply tally_ignores_event.
    + intros i. now apply tally_ignores_event.
    + intros l n w0. reflexivity.
    + intros ls w0. reflexivity.
Qed.

(** The settings round trip sends [getSettings] and nothing else. *)
Lemma getSettings_shim_tally (p : Event -> bool) (w : World) :
  (forall url, p (TabsCreate url) = false) ->
  (forall i, p (TabsSendMessage i "getSettings") = false) ->
  tally p (exec getSettings_invokeFromGlobalContentScript w) = tally p w.
Proof.
  intros Hc Hm.
  apply (stable_sendMessageToWhisperingContentScript (tally p) Msg_getSettings).
  - now apply tally_ignores_event.
  - intros i. now apply tally_ignores_event.
  - intros l n w0. reflexivity.
  - intros ls w0. reflexivity.
Qed.

(** A successful cancellation, spelled out. *)
Lemma cancelRecording_success_inv (w : World) :
  run cancelRecording_runInGlobalContentScript w = Success tt ->
  exists s,
    run getSettings_invokeFromGlobalContentScript w = Success s /\
    exec cancelRecording_runInGlobalContentScript w =
    with_recorderState "IDLE"
      (with_event (LogInfo "Recording cancelled")
         (cued (String.eqb (recorderState w) "RECORDING" && isPlaySoundEnabled s)
            cancelSound
            (with_event CancelRecording
               (exec getSettings_invokeFromGlobalContentScript w)))).
Proof.
  intros Hrun.
  destruct (run getSettings_invokeFromGlobalContentScript w) as [s | e | t] eqn:Hs.
  - exists s. split; [reflexivity |].
    unfold run, exec in *. rewrite (cancelRecording_eval w s Hs) in *. cbv zeta in *.
    destruct (recorderState_get_error (env w)); [discriminate |].
    destruct (cancelRecording_error (env w)); [discriminate |].
    destruct (recorderState_set_error (env w)); [discriminate | reflexivity].
  - destruct (cancelRecording_no_settings w) as [Hf _]; [now rewrite Hs |].
    rewrite Hrun in Hf. discriminate.
  - destruct (cancelRecording_no_settings w) as [Hf _]; [now rewrite Hs |].
    rewrite Hrun in Hf. discriminate.
Qed.

(** X20: a [cancelRecording] that does not succeed leaves the stored
    recorder state as it was, wherever it stopped. *)
Theorem X20_cancel_failure_keeps_state (w : World) :
  run cancelRecording_runInGlobalContentScript w <> Success tt ->
  recorderState (exec cancelRecording_runInGlobalContentScript w) = recorderState w.
Proof.
  intros Hrun.
  destruct (getSettings_shim_keeps w) as [Hst _].
  destruct (run getSettings_invokeFromGlobalContentScript w) as [s | e | t] eqn:Hs.
  - unfold run, exec in *. rewrite (cancelRecording_eval w s Hs) in *. cbv zeta in *.
    destruct (recorderState_get_error (env w)); [exact Hst |].
    destruct (cancelRecording_error (env w)); [exact Hst |].
    destruct (recorderState_set_error (env w)); [| now contradiction Hrun].
    cbn [snd recorderState with_event]. now rewrite recorderState_cued.
  - destruct (cancelRecording_no_settings w) as [_ ->]; [now rewrite Hs | exact Hst].
  - destruct (cancelRecording_no_settings w) as [_ ->]; [now rewrite Hs | exact Hst].
Qed.

Lemma X20_cancel_failure_keeps_state_witness :
  recorderState
    (exec cancelRecording_runInGlobalContentScript
       (recorder_world "RECORDING" None None None (Some store_failure)))
  = "RECORDING".
Proof.
  apply (X20_cancel_failure_keeps_state
           (recorder_world "RECORDING" None None None (Some store_failure))).
  vm_compute. discriminate.
Defined.

(** X21: [cancelRecording] reads the settings from the Whispering page before
    anything else: when that round trip does not succeed, the recorder is
    never asked to cancel, no cue is played and the invocation does not
    succeed. *)
Theorem X21_cancel_needs_settings (w : World) :
  is_success (run getSettings_invokeFromGlobalContentScript w) = false ->
  is_success (run cancelRecording_runInGlobalContentScript w) = false /\
  tally is_capture (exec cancelRecording_runInGlobalContentScript w) = tally is_capture w /\
  tally is_cue (exec cancelRecording_runInGlobalContentScript w) = tally is_cue w /\
  recorderState (exec cancelRecording_runInGlobalContentScript w) = recorderState w.
Proof.
  intros H. destruct (cancelRecording_no_settings w H) as [Hf ->].
  destruct (getSettings_shim_keeps w) as [Hst Htally].
  split; [exact Hf |].
  split; [now apply Htally |]. split; [now apply Htally | exact Hst].
Qed.

Lemma X21_cancel_needs_settings_witness :
  is_success (run cancelRecording_runInGlobalContentScript anonymous_peer_world) = false /\
  tally is_capture (exec cancelRecording_runInGlobalContentScript anonymous_peer_world)
  = 0.
Proof.
  destruct (X21_cancel_needs_settings anonymous_peer_world eq_refl) as (H1 & H2 & _).
  split; assumption.
Defined.

(** X22: when the recorder refuses to cancel, [cancelRecording] fails with the
    recorder's error after asking it once; no cancel cue is played and the
    stored state is not committed. *)
Theorem X22_cancel_recorder_failure (w : World) (s : Settings) (e : Error) :
  run getSettings_invokeFromGlobalContentScript w = Success s ->
  recorderState_get_error (env w) = None ->
  cancelRecording_error (env w) = Some e ->
  run cancelRecording_runInGlobalContentScript w = Failure e /\
  tally is_capture (exec cancelRecording_runInGlobalContentScript w) =
    S (tally is_capture w) /\
  tally is_cue (exec cancelRecording_runInGlobalContentScript w) = tally is_cue w /\
  recorderState (exec cancelRecording_runInGlobalContentScript w) = recorderState w.
Proof.
  intros Hs Hget Hcancel.
  destruct (getSettings_shim_keeps w) as [Hst Htally].
  unfold run, exec. rewrite (cancelRecording_eval w s Hs). cbv zeta.
  rewrite Hget, Hcancel. cbn [fst snd].
  rewrite !tally_with_event, !Htally by reflexivity. cbn.
  repeat split; try lia. exact Hst.
Qed.

Lemma X22_cancel_recorder_failure_witness :
  run cancelRecording_runInGlobalContentScript
    (recorder_world "RECORDING" None None (Some recorder_failure) None)
  = Failure recorder_failure.
Proof.
  apply (X22_cancel_recorder_failure
           (recorder_world "RECORDING" None None (Some recorder_failure) None)
           mic_settings recorder_failure);
    [vm_compute; reflexivity | reflexivity | reflexivity].
Defined.

(** X23: cancelling twice.  When two [cancelRecording] in a row both succeed,
    the second one finds IDLE, plays no cue and commits IDLE again; the
    recorder has been asked to cancel both times, and asked nothing else. *)
Theorem X23_cancel_twice (w : World) :
  run cancelRecording_runInGlobalContentScript w = Success tt ->
  run cancelRecording_runInGlobalContentScript
    (exec cancelRecording_runInGlobalContentScript w) = Success tt ->
  let once := exec cancelRecording_runInGlobalContentScript w in
  let twice := exec cancelRecording_runInGlobalContentScript once in
  recorderState once = "IDLE" /\
  recorderState twice = "IDLE" /\
  tally is_cue twice = tally is_cue once /\
  tally is_cancel_request once = S (tally is_cancel_request w) /\
  tally is_cancel_request twice = S (S (tally is_cancel_request w)) /\
  tally is_capture twice = S (S (tally is_capture w)).
Proof.
  intros H1 H2 once twice.
  destruct (cancelRecording_success_inv w H1) as (s1 & _ & E1).
  destruct (cancelRecording_success_inv once H2) as (s2 & _ & E2).
  fold once in E1. fold twice in E2.
  assert (Honce : recorderState once = "IDLE") by now rewrite E1.
  destruct (getSettings_shim_keeps once) as [_ Hk2].
  destruct (getSettings_shim_keeps w) as [_ Hk1].
  split; [exact Honce |]. split; [now rewrite E2 |].
  assert (Hreq : tally is_cancel_request once = S (tally is_cancel_request w)).
  { rewrite E1.
    rewrite !tally_with_recorderState, !tally_with_event, !tally_cued,
      !tally_with_event, !Hk1 by reflexivity.
    cbn. rewrite andb_false_r. lia. }
  assert (Hcap : tally is_capture once = S (tally is_capture w)).
  { rewrite E1.
    rewrite !tally_with_recorderState, !tally_with_event, !tally_cued,
      !tally_with_event, !Hk1 by reflexivity.
    cbn. rewrite andb_false_r. lia. }
  rewrite E2, Honce. cbn [String.eqb Ascii.eqb Bool.eqb andb cued].
  rewrite !tally_with_recorderState, !tally_with_event, !Hk2 by reflexivity.
  rewrite Hreq, Hcap. cbn. repeat split; lia.
Qed.

Lemma X23_cancel_twice_witness :
  tally is_cancel_request
    (exec cancelRecording_runInGlobalContentScript
       (exec cancelRecording_runInGlobalContentScript recording_world)) = 2.
Proof.
  apply (X23_cancel_twice recording_world); vm_compute; reflexivity.
Defined.

(** ** Commands sent to the global content script *)

(** X24: a message to the global content script that ends in a typed failure
    failed while looking up the active tab: the error is one of the two of
    [getActiveTabId], nothing was sent and the world is as it was.  The typed
    errors of the recorder commands never come back through these shims. *)
Theorem X24_global_shim_failure {R} (m : GlobalMessage R) (w : World) (e : Error) :
  run (sendMessageToGlobalContentScript m) w = Failure e ->
  (e = active_tabs_error \/ e = no_active_tab_id_error) /\
  exec (sendMessageToGlobalContentScript m) w = w.
Proof.
  unfold run, exec, sendMessageToGlobalContentScript, bind.
  rewrite getActiveTabId_eval.
  destruct (tabs_query_rejects (env w)); cbn [fst snd];
    [intros [= <-]; split; [now left | reflexivity] |].
  destruct (List.filter tab_active (tabs w)) as [|t l]; [discriminate |].
  destruct (tab_id t) as [i|];
    [| intros [= <-]; split; [now right | reflexivity]].
  destruct (Z.eqb i 0); [intros [= <-]; split; [now right | reflexivity] |].
  unfold Effect_promise, chrome_tabs_sendMessage, bind, emit, modify.
  destruct (_ || _); [discriminate |].
  destruct (globalListener m _) as [[r | ? | ?] ?]; discriminate.
Qed.

Lemma X24_global_shim_failure_witness :
  exec toggleRecording_invokeFromPopup tab_zero_world = tab_zero_world /\
  exec cancelRecording_invokeFromBackgroundServiceWorker tab_zero_world = tab_zero_world.
Proof.
  split.
  - apply (X24_global_shim_failure Msg_toggleRecording tab_zero_world
             no_active_tab_id_error). reflexivity.
  - apply (X24_global_shim_failure Msg_cancelRecording tab_zero_world
             no_active_tab_id_error). reflexivity.
Defined.

(** What a [cancelRecording] sent to the global content script has done
    when it succeeded. *)
Lemma cancelRecording_sent (w : World) :
  run (sendMessageToGlobalContentScript Msg_cancelRecording) w = Success tt ->
  exists i,
    getActiveTabId w = (Success i, w) /\
    tally (is_cancel_message i)
      (exec (sendMessageToGlobalContentScript Msg_cancelRecording) w) =
      S (tally (is_cancel_message i) w) /\
    tally is_cancel_request
      (exec (sendMessageToGlobalContentScript Msg_cancelRecording) w) =
      S (tally is_cancel_request w) /\
    recorderState (exec (sendMessageToGlobalContentScript Msg_cancelRecording) w)
    = "IDLE".
Proof.
  intros Hrun.
  pose proof (run_exec (sendMessageToGlobalContentScript Msg_cancelRecording) w) as H.
  rewrite Hrun in H.
  set (after := exec (sendMessageToGlobalContentScript Msg_cancelRecording) w) in *.
  unfold sendMessageToGlobalContentScript in H.
  apply bind_success in H as (i & w0 & Hactive & Hsend).
  assert (Hw0 : w0 = w).
  { pose proof (X := getActiveTabId_eval w). rewrite Hactive in X.
    destruct (tabs_query_rejects (env w)); [discriminate |].
    destruct (List.filter tab_active (tabs w)); [discriminate |].
    destruct (tab_id _); [| discriminate].
    destruct (Z.eqb _ 0); [discriminate | now injection X]. }
  subst w0. exists i. split; [exact Hactive |].
  unfold Effect_promise, chrome_tabs_sendMessage in Hsend.
  apply bind_success in Hsend as ([] & wb & Hemit & Hrest).
  unfold emit, modify in Hemit. injection Hemit as Hwb.
  destruct (_ || _) in Hrest; [discriminate |].
  cbn [globalListener] in Hrest.
  pose proof (run_exec cancelRecording_runInGlobalContentScript wb) as Hc.
  destruct (run cancelRecording_runInGlobalContentScript wb) as [[] | ? | ?] eqn:Hr;
    rewrite Hc in Hrest; try discriminate.
  injection Hrest as <-.
  destruct (cancelRecording_success_inv wb Hr) as (s & _ & ->).
  destruct (getSettings_shim_keeps wb) as [_ Hk].
  rewrite !tally_with_recorderState, !tally_with_event, !tally_cued, !tally_with_event.
  rewrite (getSettings_shim_tally (is_cancel_message i) wb);
    [| reflexivity | intros j; cbn; apply andb_false_r].
  rewrite (Hk is_cancel_request) by reflexivity.
  rewrite <- Hwb.
  cbn [global_commandName].
  rewrite !tally_with_event. cbn.
  rewrite Z.eqb_refl, !andb_false_r. cbn.
  repeat split; try lia.
Qed.

(** X25: a [cancelRecording] invoked from the popup or from the background
    service worker that succeeds was sent once, as the message
    [cancelRecording], to the first active tab; the recorder was asked to
    cancel once there, and the stored state ended IDLE. *)
Theorem X25_cancel_from_other_contexts (w : World) :
  (run cancelRecording_invokeFromPopup w = Success tt ->
   exists i,
     getActiveTabId w = (Success i, w) /\
     tally (is_cancel_message i) (exec cancelRecording_invokeFromPopup w) =
       S (tally (is_cancel_message i) w) /\
     tally is_cancel_request (exec cancelRecording_invokeFromPopup w) =
       S (tally is_cancel_request w) /\
     recorderState (exec cancelRecording_invokeFromPopup w) = "IDLE") /\
  (run cancelRecording_invokeFromBackgroundServiceWorker w = Success tt ->
   exists i,
     getActiveTabId w = (Success i, w) /\
     tally (is_cancel_message i)
       (exec cancelRecording_invokeFromBackgroundServiceWorker w) =
       S (tally (is_cancel_message i) w) /\
     tally is_cancel_request (exec cancelRecording_invokeFromBackgroundServiceWorker w) =
       S (tally is_cancel_request w) /\
     recorderState (exec cancelRecording_invokeFromBackgroundServiceWorker w) = "IDLE").
Proof.
  split; intros Hrun;
    destruct (cancelRecording_sent w Hrun) as (i & H1 & H2 & H3 & H4);
    exists i; repeat split; assumption.
Qed.

Lemma X25_cancel_from_other_contexts_witness :
  exists i,
    getActiveTabId recording_world = (Success i, recording_world) /\
    tally (is_cancel_message i) (exec cancelRecording_invokeFromPopup recording_world)
    = S (tally (is_cancel_message i) recording_world) /\
    tally is_cancel_request (exec cancelRecording_invokeFromPopup recording_world)
    = S (tally is_cancel_request recording_world) /\
    recorderState (exec cancelRecording_invokeFromPopup recording_world) = "IDLE".
Proof.
  apply (proj1 (X25_cancel_from_other_contexts recording_world)).
  vm_compute. reflexivity.
Defined.

(** ** The shape of the command table *)

(** X26: every command has a [runIn] member for exactly one context, its
    native one, and no [invokeFrom] member for that context; seven shims are
    defined in all, and a command reached from its native context runs its
    native handler inline. *)
Theorem X26_command_table (c : CommandName) (ctx : ExecutionContext) :
  (is_Some (runIn c ctx) <-> ctx = nativeContext c) /\
  (is_Some (invokeFrom c ctx) -> ctx <> nativeContext c) /\
  (is_Some (invokeFrom c ctx) <->
   In (c, ctx)
     [ (openOptionsPage, GlobalContentScript);
       (getSettings, GlobalContentScript);
       (setSettings, GlobalContentScript);
       (toggleRecording, BackgroundServiceWorker);
       (toggleRecording, Popup);
       (cancelRecording, BackgroundServiceWorker);
       (cancelRecording, Popup) ]) /\
  (exists fn, runIn c (nativeContext c) = Some fn /\
     forall args, invoke c (nativeContext c) args = fn args).
Proof.
  split; [apply runIn_native |].
  split.
  { intros [fn Hfn] ->. rewrite invokeFrom_not_native in Hfn. discriminate. }
  split; [apply invokeFrom_defined |].
  destruct c; eexists; split; reflexivity.
Qed.

Lemma X26_command_table_witness :
  Popup <> nativeContext toggleRecording.
Proof.
  apply (proj1 (proj2 (X26_command_table toggleRecording Popup))).
  eexists. reflexivity.
Defined.
